(** * Acknowledgment correlation of the meshtastic operator console

    Shallow embedding of the ACK handling shared by [src/meshtastic_cli.py]
    ([on_receive], [send_direct_message_and_wait]) and
    [src/meshtastic_GUI.py] ([MeshtasticGUI.on_packet_received],
    [MeshtasticGUI.send_direct_message_thread]).

    The three globals [waiting_for_ack_from], [ack_response_status] and
    [ack_received_event] form one record; every block the source runs under
    [acks_lock] is one function on that record, so it is atomic. *)

From Stdlib Require Import String List Bool Arith Lia.
From Stdlib Require Import Ascii ZArith Permutation Sorted RelationClasses.
Import ListNotations.
Open Scope string_scope.
Open Scope list_scope.

(** ** Packets as delivered by the meshtastic library (Python dicts) *)

(** [packet['decoded']['routing']]: only the key the code reads. *)
Record routing_dict := mk_routing {
  errorReason : option string
}.

(** [packet['decoded']]: the keys the code reads, plus the names of any
    other keys (they matter only for the truthiness of the dict). *)
Record decoded_dict := mk_decoded {
  portnum : option string;
  routing : option routing_dict;
  text : option string;
  other_keys : list string
}.

Record packet := mk_packet {
  fromId : option string;
  toId : option string;
  decoded : option decoded_dict
}.

(** Python truthiness of a dict: non-empty. *)
Definition decoded_truthy (d : decoded_dict) : bool :=
  match portnum d, routing d, text d, other_keys d with
  | None, None, None, [] => false
  | _, _, _, _ => true
  end.

Definition empty_decoded : decoded_dict := mk_decoded None None None [].

(** [d.get(k, default)] *)
Definition get_default (o : option string) (dflt : string) : string :=
  match o with Some s => s | None => dflt end.

(** [decoded.get('routing', {}).get('errorReason', 'UNKNOWN_RESPONSE')] *)
Definition routing_error (d : decoded_dict) : string :=
  match routing d with
  | None => "UNKNOWN_RESPONSE"
  | Some r => get_default (errorReason r) "UNKNOWN_RESPONSE"
  end.

(** ** Correlator state: the three ACK globals *)

Record ack_state := mk_ack {
  waiting_for_ack_from : option string;
  ack_response_status : string;
  ack_received_event : bool
}.

(** Module initialisation: [ack_response_status = "UNKNOWN"],
    [waiting_for_ack_from = None], a fresh (clear) [threading.Event]. *)
Definition ack_init : ack_state := mk_ack None "UNKNOWN" false.

(** Python's [waiting_for_ack_from and from_node_id == waiting_for_ack_from]:
    [None] and [""] are falsy. *)
Definition waiting_matches (w : option string) (from : option string) : bool :=
  match w with
  | None => false
  | Some x =>
      if String.eqb x "" then false
      else match from with
           | Some y => String.eqb y x
           | None => false
           end
  end.

Definition is_routing (d : decoded_dict) : bool :=
  match portnum d with
  | Some m => String.eqb m "ROUTING_APP"
  | None => false
  end.

(** What happens to an inbound packet: withheld as an ACK, dropped before
    the correlator, or handed (unmodified) to the display path. *)
Inductive disposition :=
| Consumed
| Dropped
| Displayed (p : packet).

(** The body of the [with acks_lock:] block that records an ACK. *)
Definition record_ack (c : ack_state) (error : string) : ack_state :=
  mk_ack (waiting_for_ack_from c) error true.

(** [on_receive] of the CLI.  The display part after the ACK check only
    prints, so it is [Displayed p]. *)
Definition on_receive (c : ack_state) (p : packet) : ack_state * disposition :=
  match decoded p with
  | None => (c, Dropped)
  | Some d =>
      if negb (decoded_truthy d) then (c, Dropped)
      else
        let message_type := get_default (portnum d) "N_A" in
        let from_node_id := get_default (fromId p) "N/A" in
        if waiting_matches (waiting_for_ack_from c) (Some from_node_id)
           && String.eqb message_type "ROUTING_APP"
        then (record_ack c (routing_error d), Consumed)
        else (c, Displayed p)
  end.

(** [MeshtasticGUI.on_packet_received]: [packet.get('decoded', {})]; a
    packet that is not an ACK is put on [packet_queue] for display. *)
Definition on_packet_received (c : ack_state) (p : packet) : ack_state * disposition :=
  let d := match decoded p with Some d => d | None => empty_decoded end in
  if waiting_matches (waiting_for_ack_from c) (fromId p) && is_routing d
  then (record_ack c (routing_error d), Consumed)
  else (c, Displayed p).

(** The first [with acks_lock:] block of the sender:
    [ack_received_event.clear(); ack_response_status = "UNKNOWN";
     waiting_for_ack_from = destination]. *)
Definition arm (c : ack_state) (dest : string) : ack_state :=
  mk_ack (Some dest) "UNKNOWN" false.

(** The second block: [status = ack_response_status;
    waiting_for_ack_from = None]. *)
Definition disarm (c : ack_state) : ack_state * string :=
  (mk_ack None (ack_response_status c) (ack_received_event c),
   ack_response_status c).

(** The final message the sender prints / logs. *)
Inductive outcome :=
| Delivered
| TimedOut
| Failed (reason : string)
| SendError.

Definition classify (status : string) : outcome :=
  if String.eqb status "NONE" then Delivered
  else if String.eqb status "UNKNOWN" then TimedOut
  else Failed status.

(** Feeding a sequence of packets through a receive callback. *)
Fixpoint feed (handler : ack_state -> packet -> ack_state * disposition)
    (c : ack_state) (evs : list packet) : ack_state * list disposition :=
  match evs with
  | [] => (c, [])
  | p :: evs' =>
      let '(c1, d) := handler c p in
      let '(c2, ds) := feed handler c1 evs' in
      (c2, d :: ds)
  end.

(** Result of [interface.sendText(..., wantAck=True)]. *)
Inductive send_result := SendOk | SendRaises.

(** [send_direct_message_and_wait] (CLI) and [send_direct_message_thread]
    (GUI) run on their own: arm, send, then the packets [evs] that the
    receive callback sees before the second lock block, then disarm.  When
    [sendText] raises, the [except] branch only reports the error. *)
Definition send_direct_message_and_wait
    (handler : ack_state -> packet -> ack_state * disposition)
    (c : ack_state) (dest : string) (r : send_result) (evs : list packet)
    : ack_state * outcome * list disposition :=
  let c1 := arm c dest in
  match r with
  | SendRaises => (c1, SendError, [])
  | SendOk =>
      let '(c2, ds) := feed handler c1 evs in
      let '(c3, status) := disarm c2 in
      (c3, classify status, ds)
  end.

(** A ROUTING packet from [src] carrying [reason]. *)
Definition routing_packet (src : string) (reason : option string) : packet :=
  mk_packet (Some src) None
    (Some (mk_decoded (Some "ROUTING_APP") (Some (mk_routing reason)) None [])).

Example routing_ack_cli :
  send_direct_message_and_wait on_receive ack_init "!aaaaaaaa" SendOk
    [routing_packet "!aaaaaaaa" (Some "NONE")]
  = (mk_ack None "NONE" true, Delivered, [Consumed]).
Proof. reflexivity. Qed.

(** The reason a consumed packet records (both callbacks read it the same
    way; a packet without [decoded] is read as [{}] by the GUI). *)
Definition packet_reason (p : packet) : string :=
  routing_error (match decoded p with Some d => d | None => empty_decoded end).

(** ** Sender threads and the event feed, interleaved

    Every [dm] command of the CLI (and every direct send of the GUI) starts
    a daemon thread running the sender; the pubsub thread calls the receive
    callback for each packet.  A state holds the ACK globals, the sender
    threads with their program point, and a clock in seconds. *)

(** [ack_received_event.wait(timeout=15.0)] *)
Definition ack_timeout : nat := 15.

Inductive phase :=
| PArm                    (* started, before the first [acks_lock] block *)
| PSend                   (* armed, [interface.sendText] next *)
| PWait (started : nat)   (* in [ack_received_event.wait], entered at [started] *)
| PDisarm                 (* woken, second [acks_lock] block next *)
| PDone (o : outcome).    (* status printed, thread finished *)

Record sender := mk_sender {
  s_dest : string;
  s_phase : phase
}.

Record sys := mk_sys {
  corr : ack_state;
  senders : list sender;
  clock : nat
}.

Definition sys_init : sys := mk_sys ack_init [] 0.

(** [l[i] = x] for an index that is in range. *)
Fixpoint replace_nth {A} (l : list A) (i : nat) (x : A) : list A :=
  match l, i with
  | [], _ => []
  | _ :: l', 0 => x :: l'
  | y :: l', S i' => y :: replace_nth l' i' x
  end.

Definition set_phase (s : sys) (i : nat) (t : sender) (ph : phase) : list sender :=
  replace_nth (senders s) i (mk_sender (s_dest t) ph).

(** Time may pass only while no waiting sender is past its timeout:
    [Event.wait(timeout)] returns at the latest when the timeout elapses. *)
Definition tick_allowed (s : sys) : bool :=
  forallb (fun t => match s_phase t with
                    | PWait t0 => Nat.leb (S (clock s)) (t0 + ack_timeout)
                    | _ => true
                    end) (senders s).

Inductive label :=
| LSpawn (dest : string)
| LArm (i : nat) (dest : string)
| LSendOk (i : nat) (t : nat)
| LSendRaises (i : nat)
| LWake (i : nat) (t : nat) (started : nat)
| LDisarm (i : nat) (status : string)
| LFeed (p : packet) (d : disposition)
| LTick.

Section System.

Variable handler : ack_state -> packet -> ack_state * disposition.

Inductive step : sys -> label -> sys -> Prop :=
| step_spawn s dest :
    (* [if destination_node_id:] guards the thread start *)
    dest <> "" ->
    step s (LSpawn dest)
      (mk_sys (corr s) (senders s ++ [mk_sender dest PArm]) (clock s))
| step_arm s i t :
    nth_error (senders s) i = Some t -> s_phase t = PArm ->
    step s (LArm i (s_dest t))
      (mk_sys (arm (corr s) (s_dest t)) (set_phase s i t PSend) (clock s))
| step_send_ok s i t :
    nth_error (senders s) i = Some t -> s_phase t = PSend ->
    step s (LSendOk i (clock s))
      (mk_sys (corr s) (set_phase s i t (PWait (clock s))) (clock s))
| step_send_raises s i t :
    (* the [except Exception] branch: report, nothing else *)
    nth_error (senders s) i = Some t -> s_phase t = PSend ->
    step s (LSendRaises i)
      (mk_sys (corr s) (set_phase s i t (PDone SendError)) (clock s))
| step_wake s i t t0 :
    nth_error (senders s) i = Some t -> s_phase t = PWait t0 ->
    ack_received_event (corr s) = true \/ t0 + ack_timeout <= clock s ->
    step s (LWake i (clock s) t0)
      (mk_sys (corr s) (set_phase s i t PDisarm) (clock s))
| step_disarm s i t :
    nth_error (senders s) i = Some t -> s_phase t = PDisarm ->
    step s (LDisarm i (snd (disarm (corr s))))
      (mk_sys (fst (disarm (corr s)))
              (set_phase s i t (PDone (classify (snd (disarm (corr s))))))
              (clock s))
| step_feed s p :
    step s (LFeed p (snd (handler (corr s) p)))
      (mk_sys (fst (handler (corr s) p)) (senders s) (clock s))
| step_tick s :
    tick_allowed s = true ->
    step s LTick (mk_sys (corr s) (senders s) (S (clock s))).

Inductive steps : sys -> list label -> sys -> Prop :=
| steps_nil s : steps s [] s
| steps_cons s l s1 ls s2 :
    step s l s1 -> steps s1 ls s2 -> steps s (l :: ls) s2.

Lemma steps_app s ls1 ls2 s' :
  steps s (ls1 ++ ls2) s' <-> exists m, steps s ls1 m /\ steps m ls2 s'.
Proof.
  split.
  - revert s. induction ls1 as [|l ls1 IH]; simpl; intros s H.
    + exists s. split; [constructor | exact H].
    + inversion H; subst. destruct (IH _ H5) as (m & H1 & H2).
      exists m. split; [econstructor; eauto | exact H2].
  - intros (m & H1 & H2). induction H1; simpl; [exact H2|].
    econstructor; eauto.
Qed.

Lemma steps_snoc s ls l s' :
  steps s (ls ++ [l]) s' <-> exists m, steps s ls m /\ step m l s'.
Proof.
  rewrite steps_app. split.
  - intros (m & H1 & H2). inversion H2; subst. inversion H6; subst.
    exists m. auto.
  - intros (m & H1 & H2). exists m. split; [exact H1|].
    econstructor; [exact H2 | constructor].
Qed.

End System.

(** ** Facts about the two receive callbacks *)

Ltac inv H := inversion H; subst; clear H.

Lemma on_receive_frame c p :
  snd (on_receive c p) <> Consumed -> fst (on_receive c p) = c.
Proof.
  unfold on_receive. destruct (decoded p) as [d|]; simpl; auto.
  destruct (negb (decoded_truthy d)); simpl; auto.
  destruct (_ && _); simpl; auto. congruence.
Qed.

Lemma on_packet_received_frame c p :
  snd (on_packet_received c p) <> Consumed -> fst (on_packet_received c p) = c.
Proof.
  unfold on_packet_received. destruct (_ && _); simpl; auto. congruence.
Qed.

(** A packet is consumed only while an expectation is armed, and it then
    records its reason and sets the event. *)
Definition armed (c : ack_state) : Prop :=
  exists x, waiting_for_ack_from c = Some x /\ x <> "".

Lemma waiting_matches_armed w from :
  waiting_matches w from = true -> exists x, w = Some x /\ x <> "".
Proof.
  destruct w as [x|]; simpl; [|discriminate].
  destruct (String.eqb_spec x ""); [discriminate|]. eauto.
Qed.

Lemma on_receive_consumed c p :
  snd (on_receive c p) = Consumed ->
  fst (on_receive c p) = record_ack c (packet_reason p) /\ armed c.
Proof.
  unfold on_receive, packet_reason. destruct (decoded p) as [d|]; simpl;
    [|discriminate].
  destruct (negb (decoded_truthy d)); simpl; [discriminate|].
  destruct (waiting_matches _ _) eqn:E; simpl; [|discriminate].
  destruct (String.eqb _ _); simpl; [|discriminate].
  intros _. split; [reflexivity|]. exact (waiting_matches_armed _ _ E).
Qed.

Lemma on_packet_received_consumed c p :
  snd (on_packet_received c p) = Consumed ->
  fst (on_packet_received c p) = record_ack c (packet_reason p) /\ armed c.
Proof.
  unfold on_packet_received, packet_reason.
  destruct (waiting_matches _ _) eqn:E; simpl; [|discriminate].
  destruct (is_routing _); simpl; [|discriminate].
  intros _. split; [reflexivity|]. exact (waiting_matches_armed _ _ E).
Qed.

Lemma Forall_replace_nth {A} (P : A -> Prop) l i x :
  Forall P l -> P x -> Forall P (replace_nth l i x).
Proof.
  revert i. induction l as [|y l IH]; intros i H Hx; simpl; [constructor|].
  inv H. destruct i; constructor; auto.
Qed.

(** ** Invariants of the interleaved system, for any callback that leaves
    the globals alone unless it consumes *)

Section Invariants.

Variable handler : ack_state -> packet -> ack_state * disposition.
Hypothesis handler_frame :
  forall c p, snd (handler c p) <> Consumed -> fst (handler c p) = c.
Hypothesis handler_consumed :
  forall c p, snd (handler c p) = Consumed ->
    fst (handler c p) = record_ack c (packet_reason p) /\ armed c.

Definition is_arm (l : label) : bool :=
  match l with LArm _ _ => true | _ => false end.

Definition is_consumed_feed (l : label) : bool :=
  match l with LFeed _ Consumed => true | _ => false end.

(** Only an arm or a consumed packet writes [ack_response_status]. *)
Lemma step_status_frame s l s' :
  step handler s l s' -> is_arm l = false -> is_consumed_feed l = false ->
  ack_response_status (corr s') = ack_response_status (corr s).
Proof.
  intros H Ha Hc. inv H; simpl in *; try reflexivity; try discriminate.
  destruct (snd (handler (corr s) p)) eqn:E; try discriminate;
    rewrite handler_frame by congruence; reflexivity.
Qed.

(** Nothing but a consumed packet sets the event. *)
Definition quiet (c : ack_state) : Prop :=
  ack_response_status c = "UNKNOWN" /\ ack_received_event c = false.

Lemma step_quiet s l s' :
  step handler s l s' -> is_consumed_feed l = false ->
  quiet (corr s) -> quiet (corr s').
Proof.
  unfold quiet. intros H Hc Hq. inv H; simpl in *; try exact Hq.
  - split; reflexivity.
  - destruct (snd (handler (corr s) p)) eqn:E; try discriminate;
      rewrite handler_frame by congruence; exact Hq.
Qed.

Lemma steps_quiet s ls s' :
  steps handler s ls s' -> forallb (fun l => negb (is_consumed_feed l)) ls = true ->
  quiet (corr s) -> quiet (corr s').
Proof.
  induction 1 as [|s l s1 ls s2 Hs _ IH]; simpl; intros Hf Hq; [exact Hq|].
  apply andb_prop in Hf as [Hl Hf]. apply IH; [exact Hf|].
  apply (step_quiet _ _ _ Hs); [now destruct (is_consumed_feed l)|exact Hq].
Qed.

(** A waiting sender is never past its timeout. *)
Definition wait_bounded (clk : nat) (t : sender) : Prop :=
  match s_phase t with
  | PWait t0 => clk <= t0 + ack_timeout
  | _ => True
  end.

Definition timeouts_respected (s : sys) : Prop :=
  Forall (wait_bounded (clock s)) (senders s).

Lemma step_timeouts s l s' :
  step handler s l s' -> timeouts_respected s -> timeouts_respected s'.
Proof.
  unfold timeouts_respected, set_phase.
  intros H Hs. inv H; simpl in *.
  - apply Forall_app. split; [exact Hs|]. repeat constructor.
  - apply Forall_replace_nth; [exact Hs | exact I].
  - apply Forall_replace_nth; [exact Hs|]. unfold wait_bounded; simpl.
    unfold ack_timeout; lia.
  - apply Forall_replace_nth; [exact Hs | exact I].
  - apply Forall_replace_nth; [exact Hs | exact I].
  - apply Forall_replace_nth; [exact Hs | exact I].
  - exact Hs.
  - unfold tick_allowed in H0. rewrite forallb_forall in H0.
    apply Forall_forall. intros t Ht. specialize (H0 t Ht).
    unfold wait_bounded. destruct (s_phase t); auto.
    apply Nat.leb_le in H0. exact H0.
Qed.

Lemma steps_timeouts s ls s' :
  steps handler s ls s' -> timeouts_respected s -> timeouts_respected s'.
Proof.
  induction 1; auto. intros H'. apply IHsteps. eapply step_timeouts; eauto.
Qed.

Lemma reachable_timeouts ls s :
  steps handler sys_init ls s -> timeouts_respected s.
Proof.
  intros H. apply (steps_timeouts _ _ _ H). constructor.
Qed.

End Invariants.

(** ** Shared lemmas *)

(** What the CLI does with a packet that is not taken as an ACK: an absent
    or empty [decoded] returns early, anything else is printed. *)
Definition cli_pass (p : packet) : disposition :=
  match decoded p with
  | Some d => if decoded_truthy d then Displayed p else Dropped
  | None => Dropped
  end.

Lemma on_receive_not_matching c p :
  waiting_matches (waiting_for_ack_from c) (Some (get_default (fromId p) "N/A")) = false
  \/ (forall d, decoded p = Some d -> is_routing d = false) ->
  on_receive c p = (c, cli_pass p).
Proof.
  intros H. unfold on_receive, cli_pass.
  destruct (decoded p) as [d|] eqn:Ed; [|reflexivity].
  destruct (decoded_truthy d); simpl; [|reflexivity].
  destruct H as [H|H].
  - rewrite H. reflexivity.
  - specialize (H d eq_refl). unfold is_routing in H.
    destruct (portnum d) as [m|]; simpl in *.
    + rewrite H, andb_false_r. reflexivity.
    + rewrite andb_false_r. reflexivity.
Qed.

Lemma on_packet_received_not_matching c p :
  waiting_matches (waiting_for_ack_from c) (fromId p) = false
  \/ is_routing (match decoded p with Some d => d | None => empty_decoded end) = false ->
  on_packet_received c p = (c, Displayed p).
Proof.
  intros [H|H]; unfold on_packet_received; rewrite H;
    [reflexivity | rewrite andb_false_r; reflexivity].
Qed.

Lemma on_receive_unarmed c p :
  waiting_for_ack_from c = None -> on_receive c p = (c, cli_pass p).
Proof.
  intros H. apply on_receive_not_matching. left. rewrite H. reflexivity.
Qed.

Lemma on_packet_received_unarmed c p :
  waiting_for_ack_from c = None -> on_packet_received c p = (c, Displayed p).
Proof.
  intros H. apply on_packet_received_not_matching. left. rewrite H. reflexivity.
Qed.

Lemma feed_unarmed_cli c evs :
  waiting_for_ack_from c = None -> feed on_receive c evs = (c, map cli_pass evs).
Proof.
  intros H. induction evs as [|p evs IH]; simpl; [reflexivity|].
  rewrite on_receive_unarmed by exact H. rewrite IH. reflexivity.
Qed.

Lemma feed_unarmed_gui c evs :
  waiting_for_ack_from c = None ->
  feed on_packet_received c evs = (c, map Displayed evs).
Proof.
  intros H. induction evs as [|p evs IH]; simpl; [reflexivity|].
  rewrite on_packet_received_unarmed by exact H. rewrite IH. reflexivity.
Qed.

(** A ROUTING packet from the armed source is taken as the ACK. *)
Lemma on_receive_ack c x p d :
  waiting_for_ack_from c = Some x -> x <> "" -> fromId p = Some x ->
  decoded p = Some d -> portnum d = Some "ROUTING_APP" ->
  on_receive c p = (mk_ack (Some x) (routing_error d) true, Consumed).
Proof.
  intros Hw Hx Hf Hd Hp. unfold on_receive, record_ack.
  rewrite Hd, Hw, Hf. unfold decoded_truthy. rewrite Hp. simpl.
  destruct (String.eqb_spec x ""); [contradiction|].
  rewrite String.eqb_refl. reflexivity.
Qed.

Lemma on_packet_received_ack c x p d :
  waiting_for_ack_from c = Some x -> x <> "" -> fromId p = Some x ->
  decoded p = Some d -> portnum d = Some "ROUTING_APP" ->
  on_packet_received c p = (mk_ack (Some x) (routing_error d) true, Consumed).
Proof.
  intros Hw Hx Hf Hd Hp. unfold on_packet_received, record_ack, is_routing.
  rewrite Hd, Hw, Hf, Hp. simpl.
  destruct (String.eqb_spec x ""); [contradiction|].
  rewrite String.eqb_refl. reflexivity.
Qed.

Example gui_ack_unknown :
  send_direct_message_and_wait on_packet_received ack_init "!cccccccc" SendOk
    [routing_packet "!cccccccc" (Some "NO_RESPONSE")]
  = (mk_ack None "NO_RESPONSE" true, Failed "NO_RESPONSE", [Consumed]).
Proof. reflexivity. Qed.

Example timeout_no_event :
  snd (fst (send_direct_message_and_wait on_receive ack_init "!bbbbbbbb" SendOk []))
  = TimedOut.
Proof. reflexivity. Qed.

Section Traces.

Variable handler : ack_state -> packet -> ack_state * disposition.
Hypothesis handler_frame :
  forall c p, snd (handler c p) <> Consumed -> fst (handler c p) = c.
Hypothesis handler_consumed :
  forall c p, snd (handler c p) = Consumed ->
    fst (handler c p) = record_ack c (packet_reason p) /\ armed c.

Lemma step_disarm_value s i r s' :
  step handler s (LDisarm i r) s' -> r = ack_response_status (corr s).
Proof. intros H. inv H. reflexivity. Qed.

Lemma step_wake_cond s i t t0 s' :
  step handler s (LWake i t t0) s' ->
  t = clock s /\
  (exists u, nth_error (senders s) i = Some u /\ s_phase u = PWait t0) /\
  (ack_received_event (corr s) = true \/ t0 + ack_timeout <= clock s).
Proof. intros H. inv H. eauto. Qed.

Lemma steps_status_frame s ls s' :
  steps handler s ls s' ->
  forallb (fun l => negb (is_arm l) && negb (is_consumed_feed l)) ls = true ->
  ack_response_status (corr s') = ack_response_status (corr s).
Proof.
  induction 1 as [|s l s1 ls s2 Hs _ IH]; simpl; intros Hf; [reflexivity|].
  apply andb_prop in Hf as [Hl Hf]. apply andb_prop in Hl as [Ha Hc].
  rewrite IH by exact Hf.
  apply (step_status_frame _ handler_frame _ _ _ Hs);
    [now destruct (is_arm l) | now destruct (is_consumed_feed l)].
Qed.

(** The value in [ack_response_status] after a trace from start-up:
    "UNKNOWN", or the reason of a packet consumed after the last arm. *)
Definition written_since_last_arm (ls : list label) (st : string) : Prop :=
  st = "UNKNOWN" \/
  exists (ls1 : list label) p ls2,
    ls = (ls1 ++ LFeed p Consumed :: ls2)%list /\
    forallb (fun l => negb (is_arm l)) ls2 = true /\
    st = packet_reason p.

Lemma reachable_status ls s :
  steps handler sys_init ls s ->
  written_since_last_arm ls (ack_response_status (corr s)).
Proof.
  revert s. induction ls as [|l ls IH] using rev_ind; intros s H.
  - inv H. left. reflexivity.
  - apply steps_snoc in H as (m & Hm & Hl). specialize (IH m Hm).
    destruct (is_arm l) eqn:Ea.
    { destruct l; try discriminate. inv Hl. left. reflexivity. }
    destruct (is_consumed_feed l) eqn:Ec.
    { destruct l as [| | | | | |p d|]; try discriminate.
      destruct d; try discriminate. inv Hl.
      match goal with E : snd (handler (corr m) p) = Consumed |- _ =>
        rewrite E; destruct (handler_consumed (corr m) p E) as [Hc _] end.
      right. exists ls, p, []. split; [reflexivity|]. split; [reflexivity|].
      rewrite Hc. reflexivity. }
    rewrite (step_status_frame _ handler_frame _ _ _ Hl Ea Ec).
    destruct IH as [IH | (ls1 & p & ls2 & E & Hn & Hr)]; [left; exact IH|].
    right. exists ls1, p, (ls2 ++ [l]). split.
    + rewrite E, <- app_assoc. reflexivity.
    + rewrite forallb_app, Hn. simpl. rewrite Ea. split; [reflexivity | exact Hr].
Qed.

End Traces.

(** Both callbacks satisfy the hypotheses of the sections above. *)
Definition program_handler (h : ack_state -> packet -> ack_state * disposition) : Prop :=
  h = on_receive \/ h = on_packet_received.

Lemma program_handler_frame h :
  program_handler h ->
  forall c p, snd (h c p) <> Consumed -> fst (h c p) = c.
Proof.
  intros [-> | ->]; [exact on_receive_frame | exact on_packet_received_frame].
Qed.

Lemma program_handler_consumed h :
  program_handler h ->
  forall c p, snd (h c p) = Consumed ->
    fst (h c p) = record_ack c (packet_reason p) /\ armed c.
Proof.
  intros [-> | ->]; [exact on_receive_consumed | exact on_packet_received_consumed].
Qed.

Lemma nth_error_Forall {A} (P : A -> Prop) l i x :
  Forall P l -> nth_error l i = Some x -> P x.
Proof.
  intros H Hn. apply nth_error_In in Hn. rewrite Forall_forall in H. auto.
Qed.

Lemma nth_error_replace_nth_same {A} (l : list A) i x y :
  nth_error l i = Some y -> nth_error (replace_nth l i x) i = Some x.
Proof.
  revert i. induction l as [|z l IH]; intros [|i] H; cbn in *; try discriminate;
    [reflexivity | exact (IH i H)].
Qed.

Lemma nth_error_replace_nth_other {A} (l : list A) i j x :
  i <> j -> nth_error (replace_nth l j x) i = nth_error l i.
Proof.
  revert i j. induction l as [|z l IH]; intros [|i] [|j] H; cbn; try reflexivity;
    [contradiction | apply IH; congruence].
Qed.

(** A disarm that follows a consumed packet, with no arm and no other
    consumed packet in between, returns that packet's reason. *)
Lemma disarm_after_consumed h s0 p ls s1 j r :
  program_handler h ->
  steps h s0 (LFeed p Consumed :: ls) s1 ->
  forallb (fun l => negb (is_arm l) && negb (is_consumed_feed l)) ls = true ->
  In (LDisarm j r) ls -> r = packet_reason p.
Proof.
  intros Hh Hs Hf Hin.
  inversion Hs as [|? ? m ? ? Hstep Hrest]; subst.
  assert (Hm : ack_response_status (corr m) = packet_reason p).
  { inv Hstep. match goal with E : snd (h (corr s0) p) = Consumed |- _ =>
      destruct (program_handler_consumed h Hh _ _ E) as [Hc _] end.
    simpl. rewrite Hc. reflexivity. }
  apply in_split in Hin as (l1 & l2 & ->).
  apply steps_app in Hrest as (m1 & Hpre & Hpost).
  inversion Hpost as [|? ? m2 ? ? Hd _]; subst.
  rewrite (step_disarm_value _ _ _ _ _ Hd).
  rewrite forallb_app in Hf. apply andb_prop in Hf as [Hf _].
  rewrite (steps_status_frame h (program_handler_frame h Hh) _ _ _ Hpre Hf).
  exact Hm.
Qed.

(** ** The CLI command loop ([main]) *)

(** [str.lower()] on ASCII text. *)
Definition ascii_lower (c : ascii) : ascii :=
  let n := nat_of_ascii c in
  if Nat.leb 65 n && Nat.leb n 90 then ascii_of_nat (n + 32) else c.

Fixpoint py_lower (s : string) : string :=
  match s with
  | EmptyString => EmptyString
  | String c s' => String (ascii_lower c) (py_lower s')
  end.

(** [s.split(' ')]: every single space separates, so runs of spaces give
    empty fields. *)
Fixpoint py_split_space (s : string) : list string :=
  match s with
  | EmptyString => [""]
  | String c s' =>
      let rest := py_split_space s' in
      if Ascii.eqb c " " then "" :: rest
      else match rest with
           | r :: rs => String c r :: rs
           | [] => [String c ""]
           end
  end.

(** [" ".join(l)] *)
Fixpoint py_join_space (l : list string) : string :=
  match l with
  | [] => ""
  | [x] => x
  | x :: xs => x ++ " " ++ py_join_space xs
  end.

Definition has_space (s : string) : bool :=
  existsb (fun c => Ascii.eqb c " ") (list_ascii_of_string s).

Inductive command :=
| CmdEmpty
| CmdExit
| CmdNodesAll
| CmdNodesOnline
| CmdInfo
| CmdChannel (parts : list string)
| CmdDm (parts : list string)
| CmdConfig (parts : list string)
| CmdBroadcast (text : string).

(** The body of the command loop of [main], from [if not raw_input_str] to
    the final [else] that broadcasts the raw line. *)
Definition dispatch (raw_input_str : string) : command :=
  if String.eqb raw_input_str "" then CmdEmpty
  else
    let cmd := py_lower raw_input_str in
    let parts := py_split_space raw_input_str in
    if String.eqb cmd "exit" then CmdExit
    else if String.eqb cmd "nodes all" then CmdNodesAll
    else if String.eqb cmd "nodes online" then CmdNodesOnline
    else if String.eqb cmd "info" then CmdInfo
    else if String.prefix "channel" cmd then CmdChannel parts
    else if String.prefix "dm " cmd then CmdDm parts
    else if String.prefix "config " cmd then CmdConfig parts
    else CmdBroadcast raw_input_str.

(** Entries of [interface.nodes] the CLI and GUI read. *)
Record node_user := mk_user {
  longName : option string;
  shortName : option string;
  user_id : option string;
  user_other_keys : list string
}.

Record node_info := mk_node {
  user : option node_user;
  lastHeard : option Z
}.

(** [interface.nodes]: a dict, in insertion order. *)
Definition node_table := list (string * node_info).

(** [target_identifier.lower() in [user.get('longName', '').lower(),
                                   user.get('shortName', '').lower()]]
    with [user = node_info.get('user', {})]. *)
Definition name_matches (target : string) (ni : node_info) : bool :=
  let u := match user ni with Some u => u | None => mk_user None None None [] end in
  let t := py_lower target in
  String.eqb t (py_lower (get_default (longName u) ""))
  || String.eqb t (py_lower (get_default (shortName u) "")).

Inductive dm_action :=
| DmSend (destination_node_id message : string)  (* sender thread started *)
| DmMultiple                                      (* "Multiple nodes found" *)
| DmNotFound (target : string)                    (* "Node ... not found" *)
| DmNoDestination                                 (* falsy id: nothing *)
| DmBadFormat.                                    (* "Invalid format" *)

(** The [elif cmd.startswith('dm '):] branch of [main]. *)
Definition handle_dm (nodes : node_table) (parts : list string) : dm_action :=
  match parts with
  | _ :: target_identifier :: ((_ :: _) as rest) =>
      let message := py_join_space rest in
      let destination :=
        if String.prefix "!" target_identifier then inl target_identifier
        else
          match filter (fun kv => name_matches target_identifier (snd kv)) nodes with
          | [(k, _)] => inl k
          | [] => inr (DmNotFound target_identifier)
          | _ => inr DmMultiple
          end in
      match destination with
      | inl d => if String.eqb d "" then DmNoDestination else DmSend d message
      | inr a => a
      end
  | _ => DmBadFormat
  end.

(** ** [int(s)] on an ASCII string *)

(** The ASCII characters [str.strip] removes. *)
Definition py_is_space (c : ascii) : bool :=
  let n := nat_of_ascii c in
  (Nat.leb 9 n && Nat.leb n 13) || (Nat.leb 28 n && Nat.leb n 32).

Fixpoint strip_left (l : list ascii) : list ascii :=
  match l with
  | c :: r => if py_is_space c then strip_left r else l
  | [] => []
  end.

Definition py_strip (l : list ascii) : list ascii :=
  rev (strip_left (rev (strip_left l))).

Definition digit_val (c : ascii) : option Z :=
  let n := nat_of_ascii c in
  if Nat.leb 48 n && Nat.leb n 57 then Some (Z.of_nat (n - 48)) else None.

(** The digits after the first one: a single [_] may stand between two
    digits. *)
Fixpoint parse_digits (acc : Z) (l : list ascii) : option Z :=
  match l with
  | [] => Some acc
  | c :: r =>
      match digit_val c with
      | Some d => parse_digits (acc * 10 + d)%Z r
      | None =>
          if Ascii.eqb c "_" then
            match r with
            | c' :: r' =>
                match digit_val c' with
                | Some d => parse_digits (acc * 10 + d)%Z r'
                | None => None
                end
            | [] => None
            end
          else None
      end
  end.

(** [int(s)]: [None] is the [ValueError]. *)
Definition py_int (s : string) : option Z :=
  match py_strip (list_ascii_of_string s) with
  | [] => None
  | c :: r =>
      let '(sign, body) :=
        if Ascii.eqb c "-" then (-1, r)%Z
        else if Ascii.eqb c "+" then (1, r)%Z
        else (1%Z, c :: r) in
      match body with
      | d :: r' =>
          match digit_val d with
          | Some v => option_map (Z.mul sign) (parse_digits v r')
          | None => None
          end
      | [] => None
      end
  end.

(** ** [handle_channel_command] *)

Inductive channel_role := DISABLED | PRIMARY | SECONDARY.

(** A channel of [interface.localNode.channels]; [ch_name] is
    [settings.name], the empty string when [settings] or its name is
    falsy. *)
Record channel := mk_channel {
  ch_role : channel_role;
  ch_name : string
}.

Definition is_primary (r : channel_role) : bool :=
  match r with PRIMARY => true | _ => false end.

(** The lines of [channel list]: index, name (["N/A"] when empty),
    primary flag. *)
Fixpoint channel_lines (i : nat) (chs : list channel) : list (nat * string * bool) :=
  match chs with
  | [] => []
  | ch :: r =>
      (i, (if String.eqb (ch_name ch) "" then "N/A" else ch_name ch),
       is_primary (ch_role ch)) :: channel_lines (S i) r
  end.

(** The [for i, ch in enumerate(...)] search of [channel set]: the first
    channel whose name equals the identifier case-insensitively, [-1]
    when there is none. *)
Fixpoint find_channel (target : string) (i : Z) (chs : list channel) : Z :=
  match chs with
  | [] => (-1)%Z
  | ch :: r =>
      if String.eqb (py_lower (ch_name ch)) (py_lower target) then i
      else find_channel target (i + 1)%Z r
  end.

Inductive channel_action :=
| ChUsage                                   (* invalid command / usage *)
| ChNoChannels                              (* "No channels found." *)
| ChList (lines : list (nat * string * bool))
| ChSetPrimary (index : Z)                  (* setPrimaryChannel(index) *)
| ChInvalidIndex (index : Z)
| ChNotFound (target : string)
| ChAdd (name : string)                     (* addChannel(name) *)
| ChCannotDeletePrimary
| ChDelete (index : Z)                      (* deleteChannel(index) *)
| ChInvalidDelete                           (* "Invalid channel index." *)
| ChNothing.                                (* unknown sub-command *)

Definition handle_channel_command (channels : list channel) (parts : list string)
  : channel_action :=
  match parts with
  | [] | [_] => ChUsage
  | _ :: sub_command :: args =>
      if String.eqb sub_command "list" then
        match channels with
        | [] => ChNoChannels
        | _ => ChList (channel_lines 0 channels)
        end
      else if String.eqb sub_command "set" then
        match args with
        | [] => ChUsage
        | target_identifier :: _ =>
            let target_index :=
              match py_int target_identifier with
              | Some n => n
              | None =>
                  match channels with
                  | [] => (-1)%Z
                  | _ => find_channel target_identifier 0%Z channels
                  end
              end in
            if negb (Z.eqb target_index (-1)%Z) then
              if Z.leb 0%Z target_index && Z.ltb target_index (Z.of_nat (length channels))
              then ChSetPrimary target_index
              else ChInvalidIndex target_index
            else ChNotFound target_identifier
        end
      else if String.eqb sub_command "add" then
        match args with
        | [] => ChUsage
        | name :: _ => ChAdd name
        end
      else if String.eqb sub_command "del" then
        match args with
        | [] => ChUsage
        | x :: _ =>
            match py_int x with
            | None => ChInvalidDelete
            | Some index => if Z.eqb index 0%Z then ChCannotDeletePrimary else ChDelete index
            end
        end
      else ChNothing
  end.

(** ** [handle_config_command] *)

Section Config.

(** [float(s)], [None] being the [ValueError]. *)
Variable F : Type.
Variable py_float : string -> option F.

Inductive config_action :=
| CfgUsage                                     (* "Invalid config command" *)
| CfgReboot                                    (* interface.reboot() *)
| CfgSetUsage                                  (* "Invalid 'config set' command" *)
| CfgSetOwner (long_name short_name : string)  (* setOwner(...) *)
| CfgPosUsage                                  (* "Provide latitude and longitude" *)
| CfgSetPos (lat lon : F)                      (* setFixedPosition(lat, lon) *)
| CfgBadPos                                    (* "Invalid latitude/longitude" *)
| CfgUnknownSetting (setting : string)
| CfgNothing.                                  (* unknown sub-command *)

Definition handle_config_command (parts : list string) : config_action :=
  match parts with
  | [] | [_] => CfgUsage
  | _ :: sub_command :: args =>
      if String.eqb sub_command "reboot" then CfgReboot
      else if String.eqb sub_command "set" then
        match args with
        | setting :: p3 :: rest =>
            if String.eqb setting "owner" then
              let long_name := p3 in
              let short_name :=
                match rest with
                | p4 :: _ => p4
                | [] => substring 0 4 long_name
                end in
              CfgSetOwner long_name short_name
            else if String.eqb setting "pos" then
              match rest with
              | [] => CfgPosUsage
              | p4 :: _ =>
                  match py_float p3, py_float p4 with
                  | Some lat, Some lon => CfgSetPos lat lon
                  | _, _ => CfgBadPos
                  end
              end
            else CfgUnknownSetting setting
        | _ => CfgSetUsage
        end
      else CfgNothing
  end.

End Config.

Arguments CfgUsage {F}.
Arguments CfgReboot {F}.
Arguments CfgSetUsage {F}.
Arguments CfgSetOwner {F}.
Arguments CfgPosUsage {F}.
Arguments CfgSetPos {F}.
Arguments CfgBadPos {F}.
Arguments CfgUnknownSetting {F}.
Arguments CfgNothing {F}.

(** ** Node listings: [on_nodes_updated], [print_online_nodes] *)

Definition ONLINE_THRESHOLD_SECONDS : Z := 30 * 60.

(** [node_info.get('lastHeard', 0)] *)
Definition last_heard (ni : node_info) : Z :=
  match lastHeard ni with Some t => t | None => 0%Z end.

(** [bool(user)] for the [user] dict: empty when no key is present. *)
Definition user_truthy (u : node_user) : bool :=
  match longName u, shortName u, user_id u, user_other_keys u with
  | None, None, None, [] => false
  | _, _, _, _ => true
  end.

(** [print_single_node] prints a node exactly when [node_info.get('user')]
    is truthy. *)
Definition node_printed (ni : node_info) : bool :=
  match user ni with Some u => user_truthy u | None => false end.

(** [sorted(items, key=lambda item: item[1].get('lastHeard', 0),
    reverse=True)]: the key descending, equal keys kept in their order. *)
Fixpoint insert_desc (x : string * node_info) (l : list (string * node_info))
  : list (string * node_info) :=
  match l with
  | [] => [x]
  | y :: l' =>
      if Z.leb (last_heard (snd y)) (last_heard (snd x)) then x :: l
      else y :: insert_desc x l'
  end.

Fixpoint sort_desc (l : list (string * node_info)) : list (string * node_info) :=
  match l with
  | [] => []
  | x :: l' => insert_desc x (sort_desc l')
  end.

Inductive listing :=
| NoNodesInDb                                  (* "No nodes found in the database yet." *)
| NoneOnline                                   (* "No nodes appear to be online." *)
| Listed (printed : list (string * node_info)). (* nodes print_single_node prints *)

Definition on_nodes_updated (nodes : node_table) : listing :=
  match nodes with
  | [] => NoNodesInDb
  | _ => Listed (filter (fun kv => node_printed (snd kv)) (sort_desc nodes))
  end.

(** [info.get('lastHeard', 0) > online_cutoff] with
    [online_cutoff = time.time() - ONLINE_THRESHOLD_SECONDS]; for an integer
    [lastHeard] the comparison with the float clock is the comparison with
    its integer part [now]. *)
Definition is_online (now : Z) (ni : node_info) : bool :=
  Z.ltb (now - ONLINE_THRESHOLD_SECONDS) (last_heard ni).

Definition print_online_nodes (now : Z) (nodes : node_table) : listing :=
  match nodes with
  | [] => NoNodesInDb
  | _ =>
      let online_nodes := filter (fun kv => is_online now (snd kv)) nodes in
      match online_nodes with
      | [] => NoneOnline
      | _ => Listed (filter (fun kv => node_printed (snd kv)) (sort_desc online_nodes))
      end
  end.

(** ** GUI: message window, packet queue, channel map *)

(** [self.filter_vars] with the values set in [MeshtasticGUI.__init__]. *)
Definition default_filter_vars : list (string * bool) :=
  [("ADMIN_APP", true); ("POSITION_APP", true); ("TELEMETRY_APP", true);
   ("NODEINFO_APP", true); ("ROUTING_APP", false)].

Definition filter_lookup (filters : list (string * bool)) (k : string) : option bool :=
  match find (fun kv => String.eqb (fst kv) k) filters with
  | Some (_, b) => Some b
  | None => None
  end.

Section Gui.

(** Python floats. *)
Variable F : Type.

(** [decoded['position']]: the two keys [update_message_window] reads. *)
Record position_dict := mk_position {
  latitude : option F;
  longitude : option F
}.

(** A queued packet together with its [decoded.get('position')]. *)
Definition queued := (packet * option position_dict)%type.

Inductive log_entry :=
| LogText (text : string)                          (* "Message: ..." *)
| LogPosition (lat lon : F)                        (* "Position: Lat=..., Lon=..." *)
| LogPacket (portnum : string) (data : decoded_dict). (* "Packet Type: ..." *)

Inductive window_result :=
| Filtered                                 (* returns before logging *)
| Logged (tag : string) (entry : log_entry)
| Raised.                                  (* [f"{lat:.5f}"] on ['N/A'] *)

(** [update_message_window]; the [From:] line is left out. *)
Definition update_message_window (filters : list (string * bool)) (item : queued)
  : window_result :=
  let '(p, pos) := item in
  let d := match decoded p with Some d => d | None => empty_decoded end in
  let portnum := get_default (portnum d) "UNKNOWN" in
  if match filter_lookup filters portnum with Some false => true | _ => false end
  then Filtered
  else if String.eqb portnum "TEXT_MESSAGE_APP" then
    Logged "message" (LogText (get_default (text d) "Empty message"))
  else if String.eqb portnum "POSITION_APP" then
    let pd := match pos with Some pd => pd | None => mk_position None None end in
    match latitude pd, longitude pd with
    | Some lat, Some lon => Logged "meta" (LogPosition lat lon)
    | _, _ => Raised
    end
  else Logged "meta" (LogPacket portnum d).

(** One run of [process_queue] on the queued packets: the entries logged
    and the packets left in the queue.  An exception of
    [update_message_window] leaves the loop (only [queue.Empty] is
    caught); the [finally] clause schedules the next run. *)
Fixpoint process_queue (filters : list (string * bool)) (q : list queued)
  : list (string * log_entry) * list queued :=
  match q with
  | [] => ([], [])
  | item :: q' =>
      match update_message_window filters item with
      | Raised => ([], q')
      | Filtered => process_queue filters q'
      | Logged t e => let '(l, r) := process_queue filters q' in ((t, e) :: l, r)
      end
  end.

(** The runs [self.after(100, self.process_queue)] schedules, while no
    packet arrives. *)
Fixpoint process_runs (n : nat) (filters : list (string * bool)) (q : list queued)
  : list (string * log_entry) * list queued :=
  match n with
  | O => ([], q)
  | S n' =>
      let '(l, r) := process_queue filters q in
      let '(l', r') := process_runs n' filters r in
      (l ++ l', r')
  end.

End Gui.

Arguments Filtered {F}.
Arguments Logged {F}.
Arguments Raised {F}.
Arguments LogText {F}.
Arguments LogPosition {F}.
Arguments LogPacket {F}.
Arguments mk_position {F}.
Arguments update_message_window {F}.
Arguments process_queue {F}.
Arguments process_runs {F}.

(** A Python dict as an association list in insertion order:
    [d[k] = v] keeps the place of an existing key. *)
Fixpoint dict_set {V} (k : string) (v : V) (d : list (string * V)) : list (string * V) :=
  match d with
  | [] => [(k, v)]
  | (k', v') :: d' => if String.eqb k' k then (k', v) :: d' else (k', v') :: dict_set k v d'
  end.

Fixpoint dict_get {V} (k : string) (d : list (string * V)) : option V :=
  match d with
  | [] => None
  | (k', v) :: d' => if String.eqb k' k then Some v else dict_get k d'
  end.

Definition channel_map_step (d : list (string * nat)) (ich : nat * channel)
  : list (string * nat) :=
  dict_set (ch_name (snd ich)) (fst ich) d.

(** [{ch.settings.name: i for i, ch in enumerate(channels)}] *)
Definition channel_map (chs : list channel) : list (string * nat) :=
  fold_left channel_map_step (combine (seq 0 (length chs)) chs) [].

(** The [for i, ch in enumerate(channels)] loop of [update_channel_list]
    that looks for the primary channel. *)
Fixpoint first_primary (i : nat) (chs : list channel) : option nat :=
  match chs with
  | [] => None
  | ch :: r => if is_primary (ch_role ch) then Some i else first_primary (S i) r
  end.

(** The value [update_channel_list] selects in the combobox:
    [values = list(channel_map.keys())], then [current(i)]; [None] when no
    channel is primary (or when [i] is past the values, where [current]
    raises). *)
Definition combobox_selection (chs : list channel) : option string :=
  match first_primary 0 chs with
  | Some i => nth_error (map fst (channel_map chs)) i
  | None => None
  end.

(** [send_message] without a selected node:
    [channel_map.get(channel_name, 0)]. *)
Definition broadcast_index (chs : list channel) (channel_name : string) : nat :=
  match dict_get channel_name (channel_map chs) with Some i => i | None => 0 end.

(** The entries one packet adds to the message window. *)
Definition logged_entries {F} (filters : list (string * bool)) (item : queued F)
  : list (string * log_entry F) :=
  match update_message_window filters item with
  | Logged t e => [(t, e)]
  | _ => []
  end.

(** The last position (counted from [s]) of a channel named [k]. *)
Fixpoint last_index (k : string) (s : nat) (chs : list channel) : option nat :=
  match chs with
  | [] => None
  | ch :: r =>
      match last_index k (S s) r with
      | Some i => Some i
      | None => if String.eqb (ch_name ch) k then Some s else None
      end
  end.

(** ** [print_lock] shared by the command loop and the periodic update

    [print_lock = threading.Lock()] is not reentrant: [acquire] succeeds
    only on a free lock, and otherwise waits for a release, which never
    comes when the waiting thread is itself the owner.  The two threads
    below take the lock on their own schedule; the receive callback and
    the sender threads only take it for a print and are left out. *)

Inductive thread_id := TMain | TUpdate.

(** [periodic_update_thread] *)
Inductive upd_pc :=
| UWait    (* [exit_event.wait(timeout=PERIODIC_UPDATE_INTERVAL_SECONDS)] *)
| UFired   (* the wait timed out: [with print_lock:] (line 212) next *)
| UOuter   (* holds the lock; [print_online_nodes] opens its own
              [with print_lock:] (line 139) next *)
| UInner   (* inside the block of [print_online_nodes] *)
| UAfter.  (* [print_online_nodes] returned; the outer block ends next *)

(** The command loop of [main], from [command_queue.get]. *)
Inductive main_pc :=
| MQueue                (* [command_queue.get(timeout=0.1)] *)
| MGot (raw : string)   (* a line was read: [with print_lock:] (line 499) next *)
| MHeld (raw : string)  (* holds the lock and dispatches [raw] *)
| MInner (raw : string) (* inside the handler's own [with print_lock:] block,
                           where the device is called (addChannel, setOwner,
                           reboot, ...) and the listings are printed *)
| MExit.                (* [break] *)

Record lock_sys := mk_lock_sys {
  lock_owner : option thread_id;
  upd : upd_pc;
  main_at : main_pc
}.

Definition lock_init : lock_sys := mk_lock_sys None UWait MQueue.

(** The commands whose handler opens with [with print_lock:]:
    [on_nodes_updated] (line 117), [print_online_nodes] (139),
    [handle_info_command] (261), [handle_channel_command] (300) and
    [handle_config_command] (221).  The [dm] branch only starts a thread,
    the broadcast calls [sendText], and the empty line and [exit] leave the
    block. *)
Definition cmd_takes_lock (c : command) : bool :=
  match c with
  | CmdNodesAll | CmdNodesOnline | CmdInfo | CmdChannel _ | CmdConfig _ => true
  | CmdEmpty | CmdExit | CmdDm _ | CmdBroadcast _ => false
  end.

Definition cmd_is_exit (c : command) : bool :=
  match c with CmdExit => true | _ => false end.

(** Leaving a [with] block releases the lock. *)
Inductive lstep : lock_sys -> lock_sys -> Prop :=
| l_upd_fire o m :
    lstep (mk_lock_sys o UWait m) (mk_lock_sys o UFired m)
| l_upd_acquire m :
    lstep (mk_lock_sys None UFired m) (mk_lock_sys (Some TUpdate) UOuter m)
| l_upd_inner m :
    lstep (mk_lock_sys None UOuter m) (mk_lock_sys (Some TUpdate) UInner m)
| l_upd_inner_release o m :
    lstep (mk_lock_sys o UInner m) (mk_lock_sys None UAfter m)
| l_upd_release o m :
    lstep (mk_lock_sys o UAfter m) (mk_lock_sys None UWait m)
| l_main_get o u raw :
    lstep (mk_lock_sys o u MQueue) (mk_lock_sys o u (MGot raw))
| l_main_acquire u raw :
    lstep (mk_lock_sys None u (MGot raw)) (mk_lock_sys (Some TMain) u (MHeld raw))
| l_main_run o u raw :
    cmd_takes_lock (dispatch raw) = false ->
    lstep (mk_lock_sys o u (MHeld raw))
      (mk_lock_sys None u (if cmd_is_exit (dispatch raw) then MExit else MQueue))
| l_main_handler_acquire u raw :
    cmd_takes_lock (dispatch raw) = true ->
    lstep (mk_lock_sys None u (MHeld raw)) (mk_lock_sys (Some TMain) u (MInner raw))
| l_main_handler_done o u raw :
    (* both blocks end and the prompt is printed *)
    lstep (mk_lock_sys o u (MInner raw)) (mk_lock_sys None u MQueue).

Inductive lreach : lock_sys -> lock_sys -> Prop :=
| lreach_refl s : lreach s s
| lreach_step s s1 s2 : lstep s s1 -> lreach s1 s2 -> lreach s s2.

Definition main_holds (m : main_pc) : bool :=
  match m with MHeld _ => true | _ => false end.

Definition main_inner (m : main_pc) : bool :=
  match m with MInner _ => true | _ => false end.

Definition upd_holds (u : upd_pc) : bool :=
  match u with UOuter => true | _ => false end.

Definition upd_inner (u : upd_pc) : bool :=
  match u with UInner | UAfter => true | _ => false end.

(** Who holds [print_lock], read off the two program points, and the
    handler blocks that are never entered. *)
Definition lock_inv (s : lock_sys) : Prop :=
  lock_owner s = (if main_holds (main_at s) then Some TMain
                  else if upd_holds (upd s) then Some TUpdate else None) /\
  main_holds (main_at s) && upd_holds (upd s) = false /\
  main_inner (main_at s) = false /\ upd_inner (upd s) = false.

(** Tactics that run one step of a concrete interleaving. *)
Ltac st_spawn := eapply steps_cons; [apply step_spawn; discriminate|cbn].
Ltac st_arm i t := eapply steps_cons;
  [lazymatch goal with |- step ?h ?s _ _ => apply (step_arm h s i t); reflexivity end|cbn].
Ltac st_send i t := eapply steps_cons;
  [lazymatch goal with |- step ?h ?s _ _ => apply (step_send_ok h s i t); reflexivity end|cbn].
Ltac st_wake i t := eapply steps_cons;
  [lazymatch goal with |- step _ ?s _ _ =>
     apply (step_wake _ s i t);
     [reflexivity | reflexivity | first [left; reflexivity | right; unfold ack_timeout; cbn; lia]] end|cbn].
Ltac st_disarm i t := eapply steps_cons;
  [lazymatch goal with |- step ?h ?s _ _ => apply (step_disarm h s i t); reflexivity end|cbn].
Ltac st_feed p := eapply steps_cons;
  [lazymatch goal with |- step ?h ?s _ _ => apply (step_feed h s p) end|cbn].
Ltac st_tick := eapply steps_cons;
  [lazymatch goal with |- step ?h ?s _ _ => apply (step_tick h s); reflexivity end|cbn].

(** * Claims *)

(** ** C1 *)

(** C1 (counterexample): while one sender waits for [!aaaaaaaa], a second
    ROUTING packet from [!aaaaaaaa] arriving before the disarm is consumed
    as well and replaces the first one's reason, in both callbacks. *)
Lemma C1_second_ack_also_consumed :
  send_direct_message_and_wait on_receive ack_init "!aaaaaaaa" SendOk
    [routing_packet "!aaaaaaaa" (Some "NONE");
     routing_packet "!aaaaaaaa" (Some "NO_RESPONSE")]
  = (mk_ack None "NO_RESPONSE" true, Failed "NO_RESPONSE", [Consumed; Consumed]) /\
  send_direct_message_and_wait on_packet_received ack_init "!aaaaaaaa" SendOk
    [routing_packet "!aaaaaaaa" (Some "NONE");
     routing_packet "!aaaaaaaa" (Some "NO_RESPONSE")]
  = (mk_ack None "NO_RESPONSE" true, Failed "NO_RESPONSE", [Consumed; Consumed]).
Proof. split; reflexivity. Qed.

(** C1 (amended): while the slot [waiting_for_ack_from] holds a non-empty
    [x], every ROUTING packet from [x] is consumed: its reason is recorded,
    the event is set, it is not displayed, and the slot still holds [x]
    afterwards (so the next one is consumed too).  After a disarm no packet
    is consumed and the globals stay unchanged until the next arm. *)
Theorem C1_armed_slot_consumes x :
  x <> "" ->
  (forall c p d,
     waiting_for_ack_from c = Some x -> fromId p = Some x ->
     decoded p = Some d -> portnum d = Some "ROUTING_APP" ->
     on_receive c p = (mk_ack (Some x) (routing_error d) true, Consumed) /\
     on_packet_received c p = (mk_ack (Some x) (routing_error d) true, Consumed)) /\
  (forall c evs,
     feed on_receive (fst (disarm c)) evs = (fst (disarm c), map cli_pass evs) /\
     feed on_packet_received (fst (disarm c)) evs
       = (fst (disarm c), map Displayed evs)).
Proof.
  intros Hx. split.
  - intros c p d Hw Hf Hd Hp. split.
    + exact (on_receive_ack c x p d Hw Hx Hf Hd Hp).
    + exact (on_packet_received_ack c x p d Hw Hx Hf Hd Hp).
  - intros c evs. split;
      [apply feed_unarmed_cli | apply feed_unarmed_gui]; reflexivity.
Qed.

Lemma C1_armed_slot_consumes_witness :
  "!aaaaaaaa" <> "" /\
  on_receive (arm ack_init "!aaaaaaaa") (routing_packet "!aaaaaaaa" (Some "NONE"))
    = (mk_ack (Some "!aaaaaaaa") "NONE" true, Consumed).
Proof.
  assert (Hx : "!aaaaaaaa" <> "") by discriminate.
  split; [exact Hx|].
  apply (proj1 (proj1 (C1_armed_slot_consumes "!aaaaaaaa" Hx)
    (arm ack_init "!aaaaaaaa") (routing_packet "!aaaaaaaa" (Some "NONE"))
    (mk_decoded (Some "ROUTING_APP") (Some (mk_routing (Some "NONE"))) None [])
    eq_refl eq_refl eq_refl eq_refl)).
Defined.

(** ** C2 *)

(** C2 (code defect): when [interface.sendText] raises, the [except]
    branch only reports the error; the armed expectation is left in
    place, so a later ROUTING packet from the same node is still taken as
    an ACK and hidden from display although nobody waits for it. *)
Theorem C2_send_error_keeps_expectation :
  (forall h c x evs,
     fst (fst (send_direct_message_and_wait h c x SendRaises evs))
     = mk_ack (Some x) "UNKNOWN" false /\
     snd (fst (send_direct_message_and_wait h c x SendRaises evs)) = SendError) /\
  on_receive
    (fst (fst (send_direct_message_and_wait on_receive ack_init "!aaaaaaaa" SendRaises [])))
    (routing_packet "!aaaaaaaa" (Some "NONE"))
  = (mk_ack (Some "!aaaaaaaa") "NONE" true, Consumed) /\
  on_packet_received
    (fst (fst (send_direct_message_and_wait on_packet_received ack_init "!aaaaaaaa"
                 SendRaises [])))
    (routing_packet "!aaaaaaaa" (Some "NONE"))
  = (mk_ack (Some "!aaaaaaaa") "NONE" true, Consumed).
Proof.
  split; [|split; reflexivity].
  intros h c x evs. split; reflexivity.
Qed.

(** ** C5 *)

(** C5: with no expectation armed ([waiting_for_ack_from] is [None]), any
    stream of packets leaves the ACK globals unchanged and none of them is
    consumed: the GUI queues every one for display, the CLI prints every
    one with a non-empty [decoded] (and returns early on the others). *)
Theorem C5_unarmed_never_consumes c evs :
  waiting_for_ack_from c = None ->
  feed on_receive c evs = (c, map cli_pass evs) /\
  feed on_packet_received c evs = (c, map Displayed evs) /\
  ~ In Consumed (map cli_pass evs) /\ ~ In Consumed (map Displayed evs).
Proof.
  intros H. split; [exact (feed_unarmed_cli c evs H)|].
  split; [exact (feed_unarmed_gui c evs H)|].
  split; rewrite in_map_iff; intros (p & Hp & _).
  - unfold cli_pass in Hp. destruct (decoded p); [destruct (decoded_truthy _)|];
      discriminate.
  - discriminate.
Qed.

Lemma C5_unarmed_never_consumes_witness :
  waiting_for_ack_from ack_init = None /\
  feed on_receive ack_init [routing_packet "!aaaaaaaa" (Some "NONE")]
    = (ack_init, [Displayed (routing_packet "!aaaaaaaa" (Some "NONE"))]).
Proof.
  split; [reflexivity|].
  exact (proj1 (C5_unarmed_never_consumes ack_init
    [routing_packet "!aaaaaaaa" (Some "NONE")] eq_refl)).
Defined.

(** ** C6 *)

(** C6: while armed for [x], a ROUTING packet from another node [s] is not
    consumed and the very same packet goes to the display path; a
    non-ROUTING packet from [x] is not consumed either (the GUI queues it,
    the CLI prints it or, with no [decoded], returns early). *)
Theorem C6_other_traffic_passes c x :
  waiting_for_ack_from c = Some x ->
  (forall p s d,
     fromId p = Some s -> s <> x ->
     decoded p = Some d -> portnum d = Some "ROUTING_APP" ->
     on_receive c p = (c, Displayed p) /\ on_packet_received c p = (c, Displayed p)) /\
  (forall p,
     fromId p = Some x ->
     is_routing (match decoded p with Some d => d | None => empty_decoded end) = false ->
     on_receive c p = (c, cli_pass p) /\ cli_pass p <> Consumed /\
     on_packet_received c p = (c, Displayed p)).
Proof.
  intros Hw. split.
  - intros p s d Hf Hs Hd Hp.
    assert (Hm : forall f, f = s -> waiting_matches (waiting_for_ack_from c) (Some f) = false).
    { intros f ->. rewrite Hw. simpl. destruct (String.eqb x ""); [reflexivity|].
      destruct (String.eqb_spec s x); [contradiction | reflexivity]. }
    split.
    + replace (on_receive c p) with (c, cli_pass p).
      * unfold cli_pass. rewrite Hd. unfold decoded_truthy. rewrite Hp. reflexivity.
      * symmetry. apply on_receive_not_matching. left. apply Hm.
        rewrite Hf. reflexivity.
    + apply on_packet_received_not_matching. left. rewrite Hf. apply Hm. reflexivity.
  - intros p Hf Hr. split; [|split].
    + apply on_receive_not_matching. right. intros d Hd. rewrite Hd in Hr. exact Hr.
    + unfold cli_pass. destruct (decoded p); [destruct (decoded_truthy _)|];
        discriminate.
    + apply on_packet_received_not_matching. right. exact Hr.
Qed.

Lemma C6_other_traffic_passes_witness :
  on_receive (arm ack_init "!aaaaaaaa") (routing_packet "!bbbbbbbb" (Some "NONE"))
  = (arm ack_init "!aaaaaaaa", Displayed (routing_packet "!bbbbbbbb" (Some "NONE"))).
Proof.
  apply (proj1 (proj1 (C6_other_traffic_passes (arm ack_init "!aaaaaaaa") "!aaaaaaaa"
    eq_refl) (routing_packet "!bbbbbbbb" (Some "NONE")) "!bbbbbbbb"
    (mk_decoded (Some "ROUTING_APP") (Some (mk_routing (Some "NONE"))) None [])
    eq_refl ltac:(discriminate) eq_refl eq_refl)).
Defined.

(** ** C8 *)

(** A ROUTING packet from [src] with no [errorReason] in its [routing]. *)
Definition routing_packet_no_reason (src : string) : packet :=
  mk_packet (Some src) None
    (Some (mk_decoded (Some "ROUTING_APP") (Some (mk_routing None)) None [])).

(** C8 (counterexample): an ACK-shaped packet from the armed node whose
    [routing] lacks [errorReason] is not skipped: both callbacks consume it
    and record "UNKNOWN_RESPONSE". *)
Lemma C8_missing_reason_is_consumed :
  on_receive (arm ack_init "!aaaaaaaa") (routing_packet_no_reason "!aaaaaaaa")
  = (mk_ack (Some "!aaaaaaaa") "UNKNOWN_RESPONSE" true, Consumed) /\
  on_packet_received (arm ack_init "!aaaaaaaa") (routing_packet_no_reason "!aaaaaaaa")
  = (mk_ack (Some "!aaaaaaaa") "UNKNOWN_RESPONSE" true, Consumed).
Proof. split; reflexivity. Qed.

(** C8 (amended): a packet with no [decoded] is never consumed and leaves
    the globals unchanged (the CLI returns before the ACK check, the GUI
    queues it for display); a ROUTING packet from the armed node whose
    [routing] or [errorReason] is missing is consumed with the reason
    "UNKNOWN_RESPONSE", the event set and the packet withheld. *)
Theorem C8_missing_fields c :
  (forall p, decoded p = None ->
     on_receive c p = (c, Dropped) /\ on_packet_received c p = (c, Displayed p)) /\
  (forall x p d,
     waiting_for_ack_from c = Some x -> x <> "" -> fromId p = Some x ->
     decoded p = Some d -> portnum d = Some "ROUTING_APP" ->
     (routing d = None \/ exists r, routing d = Some r /\ errorReason r = None) ->
     on_receive c p = (mk_ack (Some x) "UNKNOWN_RESPONSE" true, Consumed) /\
     on_packet_received c p = (mk_ack (Some x) "UNKNOWN_RESPONSE" true, Consumed)).
Proof.
  split.
  - intros p Hd. split.
    + unfold on_receive. rewrite Hd. reflexivity.
    + apply on_packet_received_not_matching. right. rewrite Hd. reflexivity.
  - intros x p d Hw Hx Hf Hd Hp Hr.
    assert (He : routing_error d = "UNKNOWN_RESPONSE").
    { unfold routing_error. destruct Hr as [-> | (r & -> & Hr)]; [reflexivity|].
      simpl. rewrite Hr. reflexivity. }
    rewrite <- He. split.
    + exact (on_receive_ack c x p d Hw Hx Hf Hd Hp).
    + exact (on_packet_received_ack c x p d Hw Hx Hf Hd Hp).
Qed.

Lemma C8_missing_fields_witness :
  on_packet_received ack_init (mk_packet (Some "!aaaaaaaa") None None)
  = (ack_init, Displayed (mk_packet (Some "!aaaaaaaa") None None)).
Proof.
  exact (proj2 (proj1 (C8_missing_fields ack_init)
    (mk_packet (Some "!aaaaaaaa") None None) eq_refl)).
Defined.

(** ** C9 *)

(** C9: the timeout sentinel is in-band.  Take any run, in either
    program, in which a packet [p] whose reason is the literal "UNKNOWN"
    is consumed (it matched the armed node and is ROUTING), followed by
    any traffic that is neither an arm nor another consumed packet.  The
    callback records "UNKNOWN", and every disarm in the continuation
    returns "UNKNOWN" and ends its send as a timeout: the same outcome as
    a wait in which nothing was consumed. *)
Theorem C9_unknown_reason_reads_as_timeout h s0 p ls s1 :
  program_handler h ->
  steps h s0 (LFeed p Consumed :: ls) s1 ->
  packet_reason p = "UNKNOWN" ->
  forallb (fun l => negb (is_arm l) && negb (is_consumed_feed l)) ls = true ->
  ack_response_status (fst (h (corr s0) p)) = "UNKNOWN" /\
  (forall j r, In (LDisarm j r) ls ->
     r = "UNKNOWN" /\ classify r = TimedOut /\
     (forall c x, classify r = classify (snd (disarm (arm c x))))).
Proof.
  intros Hh Hs Hu Hf. split.
  - inversion Hs as [|? ? m ? ? Hstep _]; subst. inv Hstep.
    match goal with E : snd (h (corr s0) p) = Consumed |- _ =>
      destruct (program_handler_consumed h Hh _ _ E) as [Hc _] end.
    rewrite Hc. exact Hu.
  - intros j r Hin.
    rewrite (disarm_after_consumed h s0 p ls s1 j r Hh Hs Hf Hin), Hu.
    split; [reflexivity|]. split; [reflexivity|]. intros c x. reflexivity.
Qed.

Lemma C9_unknown_reason_reads_as_timeout_witness :
  "UNKNOWN" = "UNKNOWN" /\ classify "UNKNOWN" = TimedOut.
Proof.
  refine (match proj2 (C9_unknown_reason_reads_as_timeout on_receive
    (mk_sys (mk_ack (Some "!aaaaaaaa") "UNKNOWN" false)
       [mk_sender "!aaaaaaaa" (PWait 0)] 0)
    (routing_packet "!aaaaaaaa" (Some "UNKNOWN"))
    [LFeed (routing_packet "!bbbbbbbb" (Some "NONE"))
       (Displayed (routing_packet "!bbbbbbbb" (Some "NONE")));
     LTick; LWake 0 1 0; LDisarm 0 "UNKNOWN"] _
    (or_introl eq_refl) _ eq_refl eq_refl) 0 "UNKNOWN" _ with
    conj E (conj T _) => conj E T end).
  - st_feed (routing_packet "!aaaaaaaa" (Some "UNKNOWN")).
    st_feed (routing_packet "!bbbbbbbb" (Some "NONE")).
    st_tick.
    st_wake 0 (mk_sender "!aaaaaaaa" (PWait 0)).
    st_disarm 0 (mk_sender "!aaaaaaaa" PDisarm).
    apply steps_nil.
  - cbn. do 3 right. left. reflexivity.
Defined.

(** ** C3 *)

(** C3 (counterexample): two [dm] commands run their cycles interleaved.
    Both senders are armed and past the send at the same time; the second
    arm replaced [!aaaaaaaa] by [!bbbbbbbb], and the first sender then
    reports delivery to [!aaaaaaaa] on the strength of [!bbbbbbbb]'s ACK,
    with no packet from [!aaaaaaaa] ever seen. *)
Lemma C3_cycles_interleave :
  steps on_receive sys_init
    [LSpawn "!aaaaaaaa"; LSpawn "!bbbbbbbb";
     LArm 0 "!aaaaaaaa"; LArm 1 "!bbbbbbbb"]
    (mk_sys (mk_ack (Some "!bbbbbbbb") "UNKNOWN" false)
       [mk_sender "!aaaaaaaa" PSend; mk_sender "!bbbbbbbb" PSend] 0) /\
  steps on_receive
    (mk_sys (mk_ack (Some "!bbbbbbbb") "UNKNOWN" false)
       [mk_sender "!aaaaaaaa" PSend; mk_sender "!bbbbbbbb" PSend] 0)
    [LSendOk 0 0; LSendOk 1 0;
     LFeed (routing_packet "!bbbbbbbb" (Some "NONE")) Consumed;
     LWake 0 0 0; LDisarm 0 "NONE"]
    (mk_sys (mk_ack None "NONE" true)
       [mk_sender "!aaaaaaaa" (PDone Delivered); mk_sender "!bbbbbbbb" (PWait 0)] 0).
Proof.
  split.
  - st_spawn. st_spawn.
    st_arm 0 (mk_sender "!aaaaaaaa" PArm). st_arm 1 (mk_sender "!bbbbbbbb" PArm).
    apply steps_nil.
  - st_send 0 (mk_sender "!aaaaaaaa" PSend). st_send 1 (mk_sender "!bbbbbbbb" PSend).
    st_feed (routing_packet "!bbbbbbbb" (Some "NONE")).
    st_wake 0 (mk_sender "!aaaaaaaa" (PWait 0)).
    st_disarm 0 (mk_sender "!aaaaaaaa" PDisarm).
    apply steps_nil.
Qed.

(** C3 (amended): nothing rejects or serialises a second send-and-wait.
    Take any state in which sender [i] waits for the ACK of [x] and another
    started sender [k] has not armed yet for [y].  Then [k] can arm and
    send while [i] still waits; its arm overwrites the single slot with
    [y], "UNKNOWN" and a clear event, so an ACK from [x] is no longer
    consumed; and a ROUTING packet from [y] is
    consumed, wakes [i], and [i] reports [y]'s reason as the outcome of
    its own send, while [k] goes on waiting. *)
Theorem C3_interleaved_cycles_misattribute h s i k x y t0 p d :
  program_handler h ->
  nth_error (senders s) i = Some (mk_sender x (PWait t0)) ->
  nth_error (senders s) k = Some (mk_sender y PArm) ->
  y <> "" -> fromId p = Some y -> decoded p = Some d ->
  portnum d = Some "ROUTING_APP" ->
  step h s (LArm k y)
    (mk_sys (mk_ack (Some y) "UNKNOWN" false)
       (replace_nth (senders s) k (mk_sender y PSend)) (clock s)) /\
  (forall q, fromId q = Some x -> x <> y -> snd (h (arm (corr s) y) q) <> Consumed) /\
  exists s',
    steps h s [LArm k y; LSendOk k (clock s); LFeed p Consumed;
               LWake i (clock s) t0; LDisarm i (routing_error d)] s' /\
    nth_error (senders s') i = Some (mk_sender x (PDone (classify (routing_error d)))) /\
    nth_error (senders s') k = Some (mk_sender y (PWait (clock s))).
Proof.
  intros Hh Hi Hk Hy Hp Hd Hr.
  assert (Hik : i <> k) by (intros ->; rewrite Hi in Hk; discriminate).
  split; [exact (step_arm h s k (mk_sender y PArm) Hk eq_refl)|].
  split.
  - intros q Hq Hxy.
    assert (Hw : waiting_matches (Some y) (Some x) = false).
    { cbn [waiting_matches]. destruct (String.eqb_spec y ""); [reflexivity|].
      apply String.eqb_neq. exact Hxy. }
    destruct Hh as [-> | ->].
    + rewrite on_receive_not_matching.
      * unfold cli_pass. cbn [snd].
        destruct (decoded q); [destruct (decoded_truthy _)|]; discriminate.
      * left. cbn [arm waiting_for_ack_from]. rewrite Hq. exact Hw.
    + rewrite on_packet_received_not_matching; [discriminate|].
      left. cbn [arm waiting_for_ack_from]. rewrite Hq. exact Hw.
  - assert (Hc : h (arm (corr s) y) p = (mk_ack (Some y) (routing_error d) true, Consumed)).
    { destruct Hh as [-> | ->];
        [exact (on_receive_ack (arm (corr s) y) y p d eq_refl Hy Hp Hd Hr)
        | exact (on_packet_received_ack (arm (corr s) y) y p d eq_refl Hy Hp Hd Hr)]. }
    set (L1 := replace_nth (senders s) k (mk_sender y PSend)).
    set (L2 := replace_nth L1 k (mk_sender y (PWait (clock s)))).
    set (L3 := replace_nth L2 i (mk_sender x PDisarm)).
    assert (H1 : nth_error L1 k = Some (mk_sender y PSend))
      by exact (nth_error_replace_nth_same _ _ _ _ Hk).
    assert (H2 : nth_error L2 k = Some (mk_sender y (PWait (clock s))))
      by exact (nth_error_replace_nth_same _ _ _ _ H1).
    assert (H2i : nth_error L2 i = Some (mk_sender x (PWait t0))).
    { unfold L2, L1. rewrite !nth_error_replace_nth_other by exact Hik. exact Hi. }
    assert (H3 : nth_error L3 i = Some (mk_sender x PDisarm))
      by exact (nth_error_replace_nth_same _ _ _ _ H2i).
    assert (Hf : step h (mk_sys (arm (corr s) y) L2 (clock s))
                   (LFeed p Consumed)
                   (mk_sys (mk_ack (Some y) (routing_error d) true) L2 (clock s))).
    { pose proof (step_feed h (mk_sys (arm (corr s) y) L2 (clock s)) p) as E.
      cbn [corr senders clock] in E. rewrite Hc in E. exact E. }
    exists (mk_sys (mk_ack None (routing_error d) true)
              (replace_nth L3 i (mk_sender x (PDone (classify (routing_error d)))))
              (clock s)).
    split; [|split].
    + eapply steps_cons; [exact (step_arm h s k (mk_sender y PArm) Hk eq_refl)|].
      eapply steps_cons;
        [exact (step_send_ok h (mk_sys (arm (corr s) y) L1 (clock s)) k
                  (mk_sender y PSend) H1 eq_refl)|].
      eapply steps_cons; [exact Hf|].
      eapply steps_cons;
        [exact (step_wake h (mk_sys (mk_ack (Some y) (routing_error d) true) L2 (clock s))
                  i (mk_sender x (PWait t0)) t0 H2i eq_refl (or_introl eq_refl))|].
      eapply steps_cons;
        [exact (step_disarm h (mk_sys (mk_ack (Some y) (routing_error d) true) L3 (clock s))
                  i (mk_sender x PDisarm) H3 eq_refl)|].
      apply steps_nil.
    + exact (nth_error_replace_nth_same _ _ _ _ H3).
    + cbn [senders]. rewrite nth_error_replace_nth_other by congruence.
      unfold L3. rewrite nth_error_replace_nth_other by congruence. exact H2.
Qed.

Lemma C3_interleaved_cycles_misattribute_witness :
  exists s', nth_error (senders s') 0 = Some (mk_sender "!aaaaaaaa" (PDone Delivered)).
Proof.
  destruct (proj2 (proj2 (C3_interleaved_cycles_misattribute on_receive
    (mk_sys (mk_ack (Some "!aaaaaaaa") "UNKNOWN" false)
       [mk_sender "!aaaaaaaa" (PWait 0); mk_sender "!bbbbbbbb" PArm] 3)
    0 1 "!aaaaaaaa" "!bbbbbbbb" 0 (routing_packet "!bbbbbbbb" (Some "NONE"))
    (mk_decoded (Some "ROUTING_APP") (Some (mk_routing (Some "NONE"))) None [])
    (or_introl eq_refl) eq_refl eq_refl ltac:(discriminate) eq_refl eq_refl eq_refl)))
    as (s' & _ & Hs' & _).
  exists s'. exact Hs'.
Defined.

(** ** C4 *)

(** C4 (counterexample): an ACK carrying the literal reason "UNKNOWN" is
    classified as a timeout, not as a failure; and when a second ACK from
    the same node is consumed before the disarm, the disarm returns the
    second one's reason, not the first one's. *)
Lemma C4_reason_not_always_surfaced :
  snd (fst (send_direct_message_and_wait on_receive ack_init "!cccccccc" SendOk
              [routing_packet "!cccccccc" (Some "UNKNOWN")])) = TimedOut /\
  snd (fst (send_direct_message_and_wait on_receive ack_init "!cccccccc" SendOk
              [routing_packet "!cccccccc" (Some "NO_ROUTE");
               routing_packet "!cccccccc" (Some "NONE")])) = Delivered.
Proof. split; reflexivity. Qed.

(** C4 (amended): once a packet [p] has been consumed, a disarm that
    follows with no arm and no other consumed packet in between returns
    [p]'s reason verbatim (its [errorReason] when present); the sender
    classifies "NONE" as delivered, the literal "UNKNOWN" as a timeout and
    any other value as a failure carrying that value. *)
Theorem C4_disarm_returns_consumed_reason h s0 p ls s1 j r :
  program_handler h ->
  steps h s0 (LFeed p Consumed :: ls) s1 ->
  forallb (fun l => negb (is_arm l) && negb (is_consumed_feed l)) ls = true ->
  In (LDisarm j r) ls ->
  r = packet_reason p /\
  (forall d rt e, decoded p = Some d -> routing d = Some rt ->
     errorReason rt = Some e -> r = e) /\
  (r = "NONE" -> classify r = Delivered) /\
  (r = "UNKNOWN" -> classify r = TimedOut) /\
  (r <> "NONE" -> r <> "UNKNOWN" -> classify r = Failed r).
Proof.
  intros Hh Hs Hf Hin.
  assert (Hr : r = packet_reason p).
  { inversion Hs as [|? ? m ? ? Hstep Hrest]; subst.
    assert (Hm : ack_response_status (corr m) = packet_reason p).
    { inv Hstep. match goal with E : snd (h (corr s0) p) = Consumed |- _ =>
        destruct (program_handler_consumed h Hh _ _ E) as [Hc _] end.
      simpl. rewrite Hc. reflexivity. }
    apply in_split in Hin as (l1 & l2 & ->).
    apply steps_app in Hrest as (m1 & Hpre & Hpost).
    inversion Hpost as [|? ? m2 ? ? Hd _]; subst.
    rewrite (step_disarm_value _ _ _ _ _ Hd).
    rewrite forallb_app in Hf. apply andb_prop in Hf as [Hf _].
    rewrite (steps_status_frame h (program_handler_frame h Hh) _ _ _ Hpre Hf).
    exact Hm. }
  split; [exact Hr|]. split.
  - intros d rt e Hd Hrt He. rewrite Hr. unfold packet_reason, routing_error.
    rewrite Hd, Hrt, He. reflexivity.
  - unfold classify. split; [intros ->; reflexivity|]. split; [intros ->; reflexivity|].
    intros H1 H2. destruct (String.eqb_spec r "NONE"); [contradiction|].
    destruct (String.eqb_spec r "UNKNOWN"); [contradiction|]. reflexivity.
Qed.

Lemma C4_disarm_returns_consumed_reason_witness :
  "NO_RESPONSE" = packet_reason (routing_packet "!cccccccc" (Some "NO_RESPONSE")).
Proof.
  refine (proj1 (C4_disarm_returns_consumed_reason on_receive
    (mk_sys (mk_ack (Some "!cccccccc") "UNKNOWN" false)
       [mk_sender "!cccccccc" (PWait 0)] 0)
    (routing_packet "!cccccccc" (Some "NO_RESPONSE"))
    [LWake 0 0 0; LDisarm 0 "NO_RESPONSE"] _ 0 "NO_RESPONSE"
    (or_introl eq_refl) _ eq_refl (or_intror (or_introl eq_refl)))).
  st_feed (routing_packet "!cccccccc" (Some "NO_RESPONSE")).
  st_wake 0 (mk_sender "!cccccccc" (PWait 0)).
  st_disarm 0 (mk_sender "!cccccccc" PDisarm).
  apply steps_nil.
Defined.

(** ** C7 *)

(** C7: take a sender's arm in any reachable state, and any continuation of
    the run in which no packet is consumed.  Every disarm in it returns
    "UNKNOWN", classified as a timeout (not a failure); and every sender
    that leaves [ack_received_event.wait] does so exactly when its
    [ack_timeout] of 15 seconds after entering the wait has elapsed. *)
Theorem C7_no_ack_means_timeout h ls0 s0 i x ls s1 :
  program_handler h ->
  steps h sys_init ls0 s0 ->
  steps h s0 (LArm i x :: ls) s1 ->
  forallb (fun l => negb (is_consumed_feed l)) ls = true ->
  ack_timeout = 15 /\
  (forall j r, In (LDisarm j r) ls -> r = "UNKNOWN" /\ classify r = TimedOut) /\
  (forall j t t0, In (LWake j t t0) ls -> t = t0 + ack_timeout).
Proof.
  intros Hh H0 Hs Hf.
  pose proof (program_handler_frame h Hh) as Hfr.
  inversion Hs as [|? ? m ? ? Harm Hrest]; subst.
  assert (Hq : quiet (corr m)) by (inv Harm; split; reflexivity).
  split; [reflexivity|]. split.
  - intros j r Hin.
    apply in_split in Hin as (l1 & l2 & ->).
    apply steps_app in Hrest as (m1 & Hpre & Hpost).
    inversion Hpost as [|? ? m2 ? ? Hd _]; subst.
    rewrite forallb_app in Hf. apply andb_prop in Hf as [Hf _].
    destruct (steps_quiet h Hfr _ _ _ Hpre Hf Hq) as [Hu _].
    rewrite (step_disarm_value _ _ _ _ _ Hd), Hu. split; reflexivity.
  - intros j t t0 Hin.
    apply in_split in Hin as (l1 & l2 & ->).
    pose proof Hrest as Hall.
    apply steps_app in Hrest as (m1 & Hpre & Hpost).
    inversion Hpost as [|? ? m2 ? ? Hw _]; subst.
    rewrite forallb_app in Hf. apply andb_prop in Hf as [Hf _].
    destruct (steps_quiet h Hfr _ _ _ Hpre Hf Hq) as [_ He].
    destruct (step_wake_cond _ _ _ _ _ _ Hw) as (Ht & (u & Hu & Hp) & Hc).
    rewrite He in Hc. destruct Hc as [Hc|Hc]; [discriminate|].
    assert (Hr : steps h sys_init (ls0 ++ LArm i x :: l1) m1).
    { apply steps_app. exists s0. split; [exact H0|]. econstructor; eauto. }
    pose proof (nth_error_Forall _ _ _ _ (reachable_timeouts h _ _ Hr) Hu) as Hb.
    unfold wait_bounded in Hb. rewrite Hp in Hb. lia.
Qed.

Lemma C7_no_ack_means_timeout_witness :
  15 = 0 + ack_timeout /\ classify "UNKNOWN" = TimedOut.
Proof.
  assert (Hrun : steps on_receive
    (mk_sys ack_init [mk_sender "!bbbbbbbb" PArm] 0)
    (LArm 0 "!bbbbbbbb" :: LSendOk 0 0 ::
     repeat LTick 15 ++ [LWake 0 15 0; LDisarm 0 "UNKNOWN"])
    (mk_sys (mk_ack None "UNKNOWN" false)
       [mk_sender "!bbbbbbbb" (PDone TimedOut)] 15)).
  { st_arm 0 (mk_sender "!bbbbbbbb" PArm).
    st_send 0 (mk_sender "!bbbbbbbb" PSend).
    do 15 st_tick.
    st_wake 0 (mk_sender "!bbbbbbbb" (PWait 0)).
    st_disarm 0 (mk_sender "!bbbbbbbb" PDisarm).
    apply steps_nil. }
  assert (Hinit : steps on_receive sys_init [LSpawn "!bbbbbbbb"]
    (mk_sys ack_init [mk_sender "!bbbbbbbb" PArm] 0)).
  { st_spawn. apply steps_nil. }
  destruct (C7_no_ack_means_timeout on_receive _ _ 0 "!bbbbbbbb" _ _
    (or_introl eq_refl) Hinit Hrun eq_refl) as (_ & Hd & Hw).
  split.
  - apply (Hw 0). cbn. do 16 right. left. reflexivity.
  - apply (proj2 (Hd 0 "UNKNOWN" ltac:(cbn; do 17 right; left; reflexivity))).
Defined.

(** ** C10 *)

(** C10: no stale result crosses operations.  An arm always writes
    "UNKNOWN" and clears the event (and a sender only reaches [sendText]
    through its arm); a callback changes the globals only when it consumes
    a packet, which requires an armed expectation; so in any run from
    start-up, the value a disarm returns is "UNKNOWN" or the reason of a
    packet consumed after the most recent arm. *)
Theorem C10_no_stale_result h :
  program_handler h ->
  (forall s i x s', step h s (LArm i x) s' ->
     corr s' = mk_ack (Some x) "UNKNOWN" false) /\
  (forall c p, snd (h c p) <> Consumed -> fst (h c p) = c) /\
  (forall c p, snd (h c p) = Consumed ->
     armed c /\ ack_response_status (fst (h c p)) = packet_reason p) /\
  (forall ls j r s, steps h sys_init (ls ++ [LDisarm j r]) s ->
     written_since_last_arm ls r).
Proof.
  intros Hh. split; [|split; [|split]].
  - intros s i x s' H. inv H. reflexivity.
  - exact (program_handler_frame h Hh).
  - intros c p Hc. destruct (program_handler_consumed h Hh c p Hc) as [E Ha].
    split; [exact Ha|]. rewrite E. reflexivity.
  - intros ls j r s H. apply steps_snoc in H as (m & Hm & Hd).
    rewrite (step_disarm_value _ _ _ _ _ Hd).
    exact (reachable_status h (program_handler_frame h Hh)
             (program_handler_consumed h Hh) ls m Hm).
Qed.

Lemma C10_no_stale_result_witness :
  written_since_last_arm
    [LSpawn "!aaaaaaaa"; LArm 0 "!aaaaaaaa"; LSendOk 0 0;
     LFeed (routing_packet "!aaaaaaaa" (Some "NONE")) Consumed; LWake 0 0 0]
    "NONE".
Proof.
  refine (proj2 (proj2 (proj2 (C10_no_stale_result on_packet_received
    (or_intror eq_refl)))) _ 0 "NONE"
    (mk_sys (mk_ack None "NONE" true)
       [mk_sender "!aaaaaaaa" (PDone Delivered)] 0) _).
  cbn [app].
  st_spawn. st_arm 0 (mk_sender "!aaaaaaaa" PArm).
  st_send 0 (mk_sender "!aaaaaaaa" PSend).
  st_feed (routing_packet "!aaaaaaaa" (Some "NONE")).
  st_wake 0 (mk_sender "!aaaaaaaa" (PWait 0)).
  st_disarm 0 (mk_sender "!aaaaaaaa" PDisarm).
  apply steps_nil.
Defined.

(** * Further properties of the console *)

(** ** Command line parsing *)

Lemma py_split_space_nonempty s : py_split_space s <> [].
Proof.
  destruct s as [|c s]; simpl; [discriminate|].
  destruct (Ascii.eqb c " "); [discriminate|].
  destruct (py_split_space s); discriminate.
Qed.

Lemma py_join_space_cons c r rs :
  py_join_space (String c r :: rs) = String c (py_join_space (r :: rs)).
Proof. destruct rs; reflexivity. Qed.

(** X1: [" ".join(s.split(' '))] gives back [s] exactly. *)
Theorem X1_join_split_roundtrip s : py_join_space (py_split_space s) = s.
Proof.
  induction s as [|c s IH]; [reflexivity|]. cbn [py_split_space].
  destruct (Ascii.eqb c " ") eqn:Hc.
  - apply Ascii.eqb_eq in Hc. subst c.
    destruct (py_split_space s) as [|r rs] eqn:E;
      [exfalso; exact (py_split_space_nonempty s E)|].
    change (py_join_space ("" :: r :: rs))
      with (String " " (py_join_space (r :: rs))).
    rewrite IH. reflexivity.
  - destruct (py_split_space s) as [|r rs] eqn:E;
      [exfalso; exact (py_split_space_nonempty s E)|].
    rewrite py_join_space_cons, IH. reflexivity.
Qed.

Lemma py_split_space_word t m :
  has_space t = false -> py_split_space (t ++ " " ++ m) = t :: py_split_space m.
Proof.
  induction t as [|c t IH]; intros H; [reflexivity|].
  simpl in H. apply orb_false_iff in H as [Hc Ht].
  specialize (IH Ht). simpl in IH |- *. rewrite Hc, IH. reflexivity.
Qed.

Lemma prefix_append p s : String.prefix p (p ++ s) = true.
Proof.
  induction p as [|c p IH]; [destruct s; reflexivity|].
  simpl. destruct (ascii_dec c c); [exact IH|congruence].
Qed.

Lemma py_lower_app a b : py_lower (a ++ b) = (py_lower a ++ py_lower b)%string.
Proof. induction a as [|c a IH]; simpl; [reflexivity|]. rewrite IH. reflexivity. Qed.

Lemma prefix_nonempty_neq p s : String.prefix p s = true -> p <> "" -> s <> "".
Proof. destruct p, s; simpl; congruence. Qed.

(** X2: [dm !id <message>] sends to [!id] without consulting the node table,
    and the message is the rest of the line verbatim (runs of spaces and
    trailing spaces included). *)
Theorem X2_dm_by_id nodes t m :
  String.prefix "!" t = true -> has_space t = false ->
  dispatch ("dm " ++ t ++ " " ++ m) = CmdDm ("dm" :: t :: py_split_space m) /\
  handle_dm nodes ("dm" :: t :: py_split_space m) = DmSend t m.
Proof.
  intros Hp Hs. split.
  - unfold dispatch.
    change ("dm " ++ t ++ " " ++ m)%string with ("dm" ++ " " ++ (t ++ " " ++ m))%string.
    rewrite (py_split_space_word "dm" _ eq_refl), (py_split_space_word t m Hs).
    simpl. destruct (py_lower _); reflexivity.
  - unfold handle_dm.
    destruct (py_split_space m) as [|r rs] eqn:E;
      [exfalso; exact (py_split_space_nonempty m E)|].
    rewrite <- E, X1_join_split_roundtrip, Hp.
    destruct (String.eqb_spec t ""); [|reflexivity].
    subst t. discriminate.
Qed.

Lemma X2_dm_by_id_witness :
  handle_dm [] ("dm" :: "!aaaaaaaa" :: py_split_space "hi  there ")
  = DmSend "!aaaaaaaa" "hi  there ".
Proof.
  exact (proj2 (X2_dm_by_id [] "!aaaaaaaa" "hi  there " eq_refl eq_refl)).
Defined.

Lemma filter_singleton {A} (f : A -> bool) l x y :
  filter f l = [x] -> In y l -> f y = true -> y = x.
Proof.
  intros H Hy Hf. assert (Hin : In y (filter f l)) by (apply filter_In; auto).
  rewrite H in Hin. destruct Hin as [->|[]]. reflexivity.
Qed.

(** X3: a DM is only ever sent to a non-empty destination: either the
    [!]-prefixed target itself, or, for a name, the one entry of the node
    table whose long or short name equals the target case-insensitively
    (every other entry fails to match).  The message is the remaining
    fields joined with single spaces. *)
Theorem X3_dm_destination nodes parts d m :
  handle_dm nodes parts = DmSend d m ->
  d <> "" /\
  exists w t rest, parts = w :: t :: rest /\ m = py_join_space rest /\
    ((String.prefix "!" t = true /\ d = t) \/
     (String.prefix "!" t = false /\
      exists ni, In (d, ni) nodes /\ name_matches t ni = true /\
        forall k' ni', In (k', ni') nodes -> name_matches t ni' = true ->
                       k' = d /\ ni' = ni)).
Proof.
  unfold handle_dm. destruct parts as [|w [|t [|r rs]]]; try discriminate.
  destruct (String.prefix "!" t) eqn:Hp.
  - destruct (String.eqb_spec t ""); [discriminate|]. intros H; inv H.
    split; [assumption|]. exists w, d, (r :: rs). split; [reflexivity|].
    split; [reflexivity|]. left. auto.
  - destruct (filter _ nodes) as [|[k ni] [|y ys]] eqn:Hf; try discriminate.
    destruct (String.eqb_spec k ""); [discriminate|]. intros H; inv H.
    split; [assumption|]. exists w, t, (r :: rs). split; [reflexivity|].
    split; [reflexivity|]. right. split; [exact Hp|]. exists ni.
    assert (Hin : In (d, ni) (filter (fun kv => name_matches t (snd kv)) nodes))
      by (rewrite Hf; left; reflexivity).
    apply filter_In in Hin as [Hin Hm]. split; [exact Hin|]. split; [exact Hm|].
    intros k' ni' Hk Hn.
    pose proof (filter_singleton _ _ _ (k', ni') Hf Hk Hn) as E. inv E. auto.
Qed.

Lemma X3_dm_destination_witness :
  "!bbbbbbbb" <> "".
Proof.
  exact (proj1 (X3_dm_destination
    [("!bbbbbbbb", mk_node (Some (mk_user (Some "Bob") (Some "BOB") None [])) None)]
    ["dm"; "bob"; "hi"] "!bbbbbbbb" "hi" eq_refl)).
Defined.

Lemma py_lower_empty s : py_lower s = "" <-> s = "".
Proof. destruct s; simpl; split; congruence. Qed.

(** X4: the empty target matches exactly the nodes whose long name or
    short name is missing or empty (a missing [user] counts as missing
    both). *)
Theorem X4_empty_target_matches_unnamed ni :
  name_matches "" ni = true <->
  match user ni with
  | None => True
  | Some u => get_default (longName u) "" = "" \/ get_default (shortName u) "" = ""
  end.
Proof.
  unfold name_matches. destruct (user ni) as [u|]; [|simpl; tauto].
  rewrite orb_true_iff, !String.eqb_eq.
  change (py_lower "") with "".
  split; (intros [H|H]; [left|right]);
    [exact (proj1 (py_lower_empty _) (eq_sym H))
    |exact (proj1 (py_lower_empty _) (eq_sym H))
    |rewrite H; reflexivity|rewrite H; reflexivity].
Qed.

(** X5: a DM line with two spaces after [dm] has the empty string as its
    target; it is sent to the one key of the node table whose node matches
    the empty target, the rest of the line being the message. *)
Theorem X5_double_space_dm nodes m k ni :
  filter (fun kv => name_matches "" (snd kv)) nodes = [(k, ni)] -> k <> "" ->
  dispatch ("dm  " ++ m) = CmdDm ("dm" :: "" :: py_split_space m) /\
  handle_dm nodes ("dm" :: "" :: py_split_space m) = DmSend k m.
Proof.
  intros Hf Hk. split.
  - unfold dispatch.
    change ("dm  " ++ m)%string with ("dm" ++ " " ++ (" " ++ m))%string.
    rewrite (py_split_space_word "dm" _ eq_refl).
    simpl. destruct (py_lower m); reflexivity.
  - unfold handle_dm.
    destruct (py_split_space m) as [|r rs] eqn:E;
      [exfalso; exact (py_split_space_nonempty m E)|].
    rewrite <- E, X1_join_split_roundtrip. simpl prefix. cbv iota beta.
    rewrite Hf. destruct (String.eqb_spec k ""); [contradiction|reflexivity].
Qed.

Lemma X5_double_space_dm_witness :
  handle_dm [("!cccccccc", mk_node None None);
             ("!dddddddd", mk_node (Some (mk_user (Some "Dora") (Some "DORA") None [])) None)]
    ("dm" :: "" :: py_split_space "hello") = DmSend "!cccccccc" "hello".
Proof.
  exact (proj2 (X5_double_space_dm
    [("!cccccccc", mk_node None None);
     ("!dddddddd", mk_node (Some (mk_user (Some "Dora") (Some "DORA") None [])) None)]
    "hello" "!cccccccc" (mk_node None None) eq_refl ltac:(discriminate))).
Defined.

(** X6: the line is taken as [exit] exactly when its lower-case form is
    [exit]: case is ignored but surrounding spaces are not stripped. *)
Theorem X6_exit_iff raw : dispatch raw = CmdExit <-> py_lower raw = "exit".
Proof.
  unfold dispatch. split.
  - destruct (String.eqb raw ""); [discriminate|].
    destruct (String.eqb_spec (py_lower raw) "exit"); [auto|].
    repeat match goal with |- context [if ?b then _ else _] => destruct b end;
      discriminate.
  - intros H. rewrite H.
    destruct (String.eqb_spec raw ""); [subst raw; discriminate|reflexivity].
Qed.

(** ** [print_lock] *)

Lemma lock_inv_init : lock_inv lock_init.
Proof. repeat split. Qed.

Lemma lstep_inv s s' : lstep s s' -> lock_inv s -> lock_inv s'.
Proof.
  intros H (Ho & Hx & Hm & Hu). unfold lock_inv.
  inv H; cbn in *;
    repeat match goal with
    | m : main_pc |- _ => destruct m
    | u : upd_pc |- _ => destruct u
    | |- context [cmd_is_exit ?c] => destruct (cmd_is_exit c)
    end; cbn in *; repeat split; congruence.
Qed.

Lemma lreach_inv s s' : lreach s s' -> lock_inv s -> lock_inv s'.
Proof. induction 1; auto. intros H'. apply IHlreach. exact (lstep_inv _ _ H H'). Qed.

Lemma reachable_lock_inv s : lreach lock_init s -> lock_inv s.
Proof. intros H. exact (lreach_inv _ _ H lock_inv_init). Qed.

Lemma lreach_trans s1 s2 s3 : lreach s1 s2 -> lreach s2 s3 -> lreach s1 s3.
Proof. induction 1; auto. intros H'. econstructor; eauto. Qed.

(** [main] inside its block with a line whose handler takes the lock has
    no step, and no other step releases the lock. *)
Lemma main_blocked_step s s' raw :
  lock_inv s -> main_at s = MHeld raw -> cmd_takes_lock (dispatch raw) = true ->
  lstep s s' -> lock_inv s' /\ main_at s' = MHeld raw /\ lock_owner s' = Some TMain.
Proof.
  intros Hi Hm Ht H. split; [exact (lstep_inv _ _ H Hi)|].
  destruct Hi as (Ho & Hx & Hmi & Hu).
  inv H; cbn in *; subst; cbn in *; try discriminate; try congruence.
  split; reflexivity.
Qed.

Lemma main_blocked s s' raw :
  lock_inv s -> main_at s = MHeld raw -> cmd_takes_lock (dispatch raw) = true ->
  lreach s s' -> main_at s' = MHeld raw /\ lock_owner s' = Some TMain.
Proof.
  intros Hi Hm Ht H. revert Hi Hm. induction H as [s|s s1 s2 Hs _ IH]; intros Hi Hm.
  - split; [exact Hm|]. destruct Hi as (Ho & _). rewrite Hm in Ho. exact Ho.
  - destruct (main_blocked_step _ _ _ Hi Hm Ht Hs) as (Hi1 & Hm1 & _).
    exact (IH Hi1 Hm1).
Qed.

(** Once the periodic update holds the lock, it has no step, and no other
    step releases the lock. *)
Lemma upd_blocked_step s s' :
  lock_inv s -> upd s = UOuter -> lstep s s' ->
  lock_inv s' /\ upd s' = UOuter /\ lock_owner s' = Some TUpdate.
Proof.
  intros Hi Hu H. split; [exact (lstep_inv _ _ H Hi)|].
  destruct Hi as (Ho & Hx & Hmi & Hui).
  inv H; cbn in *; subst; cbn in *; try discriminate; try congruence;
    repeat match goal with m : main_pc |- _ => destruct m end;
    cbn in *; try discriminate; split; congruence.
Qed.

Lemma upd_blocked s s' :
  lock_inv s -> upd s = UOuter -> lreach s s' ->
  lock_inv s' /\ upd s' = UOuter /\ lock_owner s' = Some TUpdate.
Proof.
  intros Hi Hu H. revert Hi Hu. induction H as [s|s s1 s2 Hs _ IH]; intros Hi Hu.
  - split; [exact Hi|]. split; [exact Hu|]. destruct Hi as (Ho & Hx & _).
    rewrite Hu in Ho, Hx. cbn in Ho, Hx.
    destruct (main_holds (main_at s)); [discriminate|exact Ho].
  - destruct (upd_blocked_step _ _ Hi Hu Hs) as (Hi1 & Hu1 & _).
    exact (IH Hi1 Hu1).
Qed.

Lemma prefix_dm_config c :
  String.prefix "dm " c = true -> String.prefix "config " c = true -> False.
Proof.
  intros H1 H2. destruct c as [|a c]; [discriminate H1|]. cbn [String.prefix] in H1, H2.
  destruct (ascii_dec "d"%char a); destruct (ascii_dec "c"%char a); congruence.
Qed.

Lemma cmd_takes_lock_dispatch raw :
  cmd_takes_lock (dispatch raw) = true <->
  py_lower raw = "nodes all" \/ py_lower raw = "nodes online" \/
  py_lower raw = "info" \/ String.prefix "channel" (py_lower raw) = true \/
  String.prefix "config " (py_lower raw) = true.
Proof.
  unfold dispatch.
  destruct (String.eqb_spec raw "") as [->|_].
  { cbn. split; [discriminate|]. intros [H|[H|[H|[H|H]]]]; discriminate H. }
  generalize (py_lower raw). intros c.
  destruct (String.eqb_spec c "exit") as [->|Hex].
  { cbn. split; [discriminate|]. intros [H|[H|[H|[H|H]]]]; discriminate H. }
  destruct (String.eqb_spec c "nodes all") as [->|Hna]; [split; auto|].
  destruct (String.eqb_spec c "nodes online") as [->|Hno]; [split; auto|].
  destruct (String.eqb_spec c "info") as [->|Hin]; [split; auto|].
  destruct (String.prefix "channel" c) eqn:Hch; [split; auto|].
  destruct (String.prefix "dm " c) eqn:Hdm.
  { cbn. split; [discriminate|].
    intros [H|[H|[H|[H|H]]]]; try contradiction; try discriminate H.
    exfalso. exact (prefix_dm_config c Hdm H). }
  destruct (String.prefix "config " c) eqn:Hcf; cbn; [split; auto|].
  split; [discriminate|]. intros [H|[H|[H|[H|H]]]]; congruence.
Qed.

(** X7: a line hangs the command loop exactly when it is [nodes all],
    [nodes online] or [info] (case ignored), or when its lower-case form
    starts with [channel] or [config ].  [main] runs the handler while it
    holds [print_lock], and the handler's own [with print_lock:] waits for
    a release only [main] could make: from then on [main] stays in its
    block and keeps the lock, whatever the other thread does.  Any other
    line is handled and the lock released. *)
Theorem X7_console_line_hangs raw :
  (cmd_takes_lock (dispatch raw) = true <->
     py_lower raw = "nodes all" \/ py_lower raw = "nodes online" \/
     py_lower raw = "info" \/ String.prefix "channel" (py_lower raw) = true \/
     String.prefix "config " (py_lower raw) = true) /\
  (forall s s', lreach lock_init s -> main_at s = MHeld raw ->
     cmd_takes_lock (dispatch raw) = true -> lreach s s' ->
     main_at s' = MHeld raw /\ lock_owner s' = Some TMain) /\
  (forall s, main_at s = MHeld raw -> cmd_takes_lock (dispatch raw) = false ->
     lstep s (mk_lock_sys None (upd s)
               (if cmd_is_exit (dispatch raw) then MExit else MQueue))).
Proof.
  split; [exact (cmd_takes_lock_dispatch raw)|]. split.
  - intros s s' Hr Hm Ht H.
    exact (main_blocked s s' raw (reachable_lock_inv s Hr) Hm Ht H).
  - intros [o u m] Hm Ht. cbn in Hm. subst m. exact (l_main_run o u raw Ht).
Qed.

Lemma X7_console_line_hangs_witness :
  main_at (mk_lock_sys (Some TMain) UFired (MHeld "channel add My Channel"))
    = MHeld "channel add My Channel" /\
  lock_owner (mk_lock_sys (Some TMain) UFired (MHeld "channel add My Channel"))
    = Some TMain.
Proof.
  apply (proj1 (proj2 (X7_console_line_hangs "channel add My Channel"))
    (mk_lock_sys (Some TMain) UWait (MHeld "channel add My Channel"))).
  - eapply lreach_step; [apply l_main_get|].
    eapply lreach_step; [apply l_main_acquire|]. apply lreach_refl.
  - reflexivity.
  - vm_compute. reflexivity.
  - eapply lreach_step; [apply l_upd_fire|]. apply lreach_refl.
Defined.

(** ** Channel commands *)

Lemma find_channel_spec t k chs :
  find_channel t k chs = (-1)%Z \/
  exists j ch, find_channel t k chs = (k + Z.of_nat j)%Z /\
    nth_error chs j = Some ch /\ py_lower (ch_name ch) = py_lower t /\
    forall j' ch', (j' < j)%nat -> nth_error chs j' = Some ch' ->
                   py_lower (ch_name ch') <> py_lower t.
Proof.
  revert k. induction chs as [|c cs IH]; intros k; [left; reflexivity|].
  simpl. destruct (String.eqb_spec (py_lower (ch_name c)) (py_lower t)) as [E|E].
  - right. exists 0%nat, c. repeat split; [lia|exact E|]. intros j' ch' Hj; lia.
  - destruct (IH (k + 1)%Z) as [H|(j & ch & H1 & H2 & H3 & H4)]; [left; exact H|].
    right. exists (S j), ch. repeat split; [rewrite H1; lia|exact H2|exact H3|].
    intros [|j'] ch' Hj Hn; [simpl in Hn; congruence|].
    apply (H4 j'); [lia|exact Hn].
Qed.

Ltac chan_other_subcommands :=
  repeat match goal with
  | |- context [match ?l with [] => _ | _ :: _ => _ end] => destruct l
  | |- context [if ?b then _ else _] => destruct b
  | |- context [match py_int ?x with Some _ => _ | None => _ end] => destruct (py_int x)
  end; discriminate.

(** X8: [channel set] only ever calls [setPrimaryChannel] with an index
    inside the channel list; the index is the identifier read as an
    integer, or, when the identifier is not an integer, the position of the
    first channel whose name equals it case-insensitively. *)
Theorem X8_set_primary_in_range chs parts i :
  handle_channel_command chs parts = ChSetPrimary i ->
  (0 <= i < Z.of_nat (length chs))%Z /\
  exists w t rest, parts = w :: "set" :: t :: rest /\
    (py_int t = Some i \/
     (py_int t = None /\
      exists ch, nth_error chs (Z.to_nat i) = Some ch /\
        py_lower (ch_name ch) = py_lower t /\
        forall j ch', (j < Z.to_nat i)%nat -> nth_error chs j = Some ch' ->
                      py_lower (ch_name ch') <> py_lower t)).
Proof.
  unfold handle_channel_command.
  destruct parts as [|w [|sub args]]; try discriminate.
  destruct (String.eqb_spec sub "list") as [Hl|Hl]; [chan_other_subcommands|].
  destruct (String.eqb_spec sub "set") as [->|Hs]; [|chan_other_subcommands].
  destruct args as [|t rest]; [discriminate|].
  assert (Hfin : forall n, (if negb (n =? -1)%Z then
      if (0 <=? n)%Z && (n <? Z.of_nat (length chs))%Z then ChSetPrimary n
      else ChInvalidIndex n else ChNotFound t) = ChSetPrimary i ->
      n = i /\ (0 <= i < Z.of_nat (length chs))%Z).
  { intros n. destruct (Z.eqb n (-1)); [discriminate|]. simpl.
    destruct ((0 <=? n)%Z && (n <? Z.of_nat (length chs))%Z) eqn:Hb; [|discriminate].
    intros H; inv H. apply andb_true_iff in Hb as [H1 H2].
    apply Z.leb_le in H1; apply Z.ltb_lt in H2. auto. }
  destruct (py_int t) as [n|] eqn:Hi.
  - intros H. apply Hfin in H as [<- Hr]. split; [exact Hr|].
    exists w, t, rest. split; [reflexivity|]. left; exact Hi.
  - destruct chs as [|c cs]; [discriminate|].
    intros H. apply Hfin in H as [E Hr]. split; [exact Hr|].
    exists w, t, rest. split; [reflexivity|]. right. split; [exact Hi|].
    destruct (find_channel_spec t 0 (c :: cs)) as [H|(j & ch & H1 & H2 & H3 & H4)];
      [rewrite H in E; subst i; lia|].
    rewrite H1 in E. subst i. rewrite Z.add_0_l, Nat2Z.id.
    exists ch. auto.
Qed.

Lemma X8_set_primary_in_range_witness :
  (0 <= 1 < 2)%Z.
Proof.
  exact (proj1 (X8_set_primary_in_range
    [mk_channel PRIMARY "LongFast"; mk_channel SECONDARY "Family"]
    ["channel"; "set"; "FAMILY"] 1 eq_refl)).
Defined.

(** X9: an identifier that reads as an integer is never looked up by
    name: the outcome of [channel set] only depends on how many channels
    there are, not on their names or roles. *)
Theorem X9_numeric_identifier_ignores_names chs chs' w w' t rest rest' n :
  py_int t = Some n -> length chs = length chs' ->
  handle_channel_command chs (w :: "set" :: t :: rest)
  = handle_channel_command chs' (w' :: "set" :: t :: rest').
Proof.
  intros Hi Hl. unfold handle_channel_command. rewrite Hi, Hl. reflexivity.
Qed.

Lemma X9_numeric_identifier_ignores_names_witness :
  handle_channel_command [mk_channel PRIMARY "LongFast"; mk_channel SECONDARY "1"]
    ["channel"; "set"; "0"]
  = handle_channel_command [mk_channel DISABLED ""; mk_channel PRIMARY "0"]
    ["channel"; "set"; "0"].
Proof.
  exact (X9_numeric_identifier_ignores_names
    [mk_channel PRIMARY "LongFast"; mk_channel SECONDARY "1"]
    [mk_channel DISABLED ""; mk_channel PRIMARY "0"]
    "channel" "channel" "0" [] [] 0 eq_refl eq_refl).
Defined.

(** X10: an identifier that reads as the integer [-1] collides with the
    "not found" sentinel: [channel set] reports the channel as not found,
    whatever the channels are. *)
Theorem X10_minus_one_not_found chs w t rest :
  py_int t = Some (-1)%Z ->
  handle_channel_command chs (w :: "set" :: t :: rest) = ChNotFound t.
Proof. intros Hi. unfold handle_channel_command. rewrite Hi. reflexivity. Qed.

Lemma X10_minus_one_not_found_witness :
  handle_channel_command [mk_channel PRIMARY "LongFast"; mk_channel SECONDARY "-1"]
    ["channel"; "set"; "-0_1"] = ChNotFound "-0_1".
Proof.
  exact (X10_minus_one_not_found
    [mk_channel PRIMARY "LongFast"; mk_channel SECONDARY "-1"]
    "channel" "-0_1" [] eq_refl).
Defined.

(** X11: [channel del] calls [deleteChannel] exactly with the integers
    other than 0 (["-0"], ["00"], [" 0"] read as 0 and are refused); the
    index is not checked against the channel list. *)
Theorem X11_delete_index chs w x rest i :
  handle_channel_command chs (w :: "del" :: x :: rest) = ChDelete i <->
  py_int x = Some i /\ i <> 0%Z.
Proof.
  unfold handle_channel_command.
  destruct (py_int x) as [z|] eqn:Hx; cbn.
  - destruct (Z.eqb_spec z 0) as [->|Hz]; split.
    + discriminate.
    + intros [H1 H2]. inv H1. contradiction.
    + intros H; inv H. auto.
    + intros [H1 _]. inv H1. reflexivity.
  - split; [discriminate|intros [H _]; discriminate].
Qed.

Lemma prefix_app p a b : String.prefix p a = true -> String.prefix p (a ++ b) = true.
Proof.
  revert a. induction p as [|c p IH]; intros a H; [destruct (a ++ b)%string; reflexivity|].
  destruct a as [|c' a]; [discriminate|]. simpl in *.
  destruct (ascii_dec c c'); [exact (IH a H)|discriminate].
Qed.

Lemma py_split_space_no_space s : has_space s = false -> py_split_space s = [s].
Proof.
  induction s as [|c s IH]; intros H; [reflexivity|].
  simpl in H. apply orb_false_iff in H as [Hc Hs].
  simpl. rewrite Hc, (IH Hs). reflexivity.
Qed.

(** X12: from the console no handler that takes [print_lock] ever runs
    its body: in no reachable state is [main] inside such a handler's
    block, so [addChannel], [setPrimaryChannel], [deleteChannel],
    [setOwner], [setFixedPosition] and [reboot] are never called from the
    command loop; yet every line can be read and reach the dispatch. *)
Theorem X12_console_never_runs_handler :
  (forall s, lreach lock_init s -> main_inner (main_at s) = false) /\
  (forall raw, lreach lock_init (mk_lock_sys (Some TMain) UWait (MHeld raw))).
Proof.
  split.
  - intros s H. exact (proj1 (proj2 (proj2 (reachable_lock_inv s H)))).
  - intros raw. eapply lreach_step; [apply l_main_get|].
    eapply lreach_step; [apply l_main_acquire|]. apply lreach_refl.
Qed.

Lemma X12_console_never_runs_handler_witness :
  main_inner (main_at (mk_lock_sys (Some TMain) UWait (MHeld "channel add My Channel")))
  = false.
Proof.
  apply (proj1 X12_console_never_runs_handler).
  exact (proj2 X12_console_never_runs_handler "channel add My Channel").
Defined.

(** X13: any first word whose lower-case form starts with [channel]
    ([Channels], [channelx], ...) makes the line a channel command. *)
Theorem X13_channel_prefix_word w r :
  String.prefix "channel" (py_lower w) = true -> has_space w = false ->
  dispatch (w ++ " " ++ r) = CmdChannel (w :: py_split_space r).
Proof.
  intros Hp Hs. unfold dispatch. rewrite (py_split_space_word w r Hs).
  assert (Hp' : String.prefix "channel" (py_lower (w ++ " " ++ r)) = true)
    by (rewrite py_lower_app; apply prefix_app; exact Hp).
  destruct (String.eqb_spec (w ++ " " ++ r) "") as [E|_];
    [rewrite E in Hp'; discriminate|].
  destruct (String.eqb_spec (py_lower (w ++ " " ++ r)) "exit") as [E|_];
    [rewrite E in Hp'; discriminate|].
  destruct (String.eqb_spec (py_lower (w ++ " " ++ r)) "nodes all") as [E|_];
    [rewrite E in Hp'; discriminate|].
  destruct (String.eqb_spec (py_lower (w ++ " " ++ r)) "nodes online") as [E|_];
    [rewrite E in Hp'; discriminate|].
  destruct (String.eqb_spec (py_lower (w ++ " " ++ r)) "info") as [E|_];
    [rewrite E in Hp'; discriminate|].
  rewrite Hp'. reflexivity.
Qed.

Lemma X13_channel_prefix_word_witness :
  dispatch ("Channels" ++ " " ++ "list") = CmdChannel ("Channels" :: py_split_space "list").
Proof. exact (X13_channel_prefix_word "Channels" "list" eq_refl eq_refl). Defined.

(** ** Config commands *)

Lemma substring0_length k s : String.length (substring 0 k s) = Nat.min k (String.length s).
Proof.
  revert k. induction s as [|c s IH]; intros [|k]; simpl; auto.
Qed.

Lemma substring0_prefix k s : String.prefix (substring 0 k s) s = true.
Proof.
  revert k. induction s as [|c s IH]; intros [|k]; simpl; auto.
  destruct (ascii_dec c c); [apply IH|congruence].
Qed.

(** X14: in [handle_config_command], [config set owner <long>] without
    a short name uses the first four characters of the long name: a prefix
    of it, four characters long or the whole long name when it is
    shorter. *)
Theorem X14_owner_default_short F (py_float : string -> option F) w a :
  exists short_name,
    handle_config_command F py_float [w; "set"; "owner"; a]
    = CfgSetOwner a short_name /\
    String.prefix short_name a = true /\
    String.length short_name = Nat.min 4 (String.length a).
Proof.
  exists (substring 0 4 a). split; [reflexivity|].
  split; [apply substring0_prefix|apply substring0_length].
Qed.

Lemma X14_owner_default_short_witness :
  handle_config_command unit (fun _ => None) ["config"; "set"; "owner"; "Johnathan"]
  = CfgSetOwner "Johnathan" "John".
Proof.
  destruct (X14_owner_default_short unit (fun _ => None) "config" "Johnathan")
    as (short & H & Hp & Hl).
  rewrite H. destruct short as [|c1 [|c2 [|c3 [|c4 [|c5 s]]]]]; try discriminate Hl.
  destruct (ascii_dec c1 "J"); [subst c1|simpl in Hp; destruct (ascii_dec c1 "J"); congruence].
  destruct (ascii_dec c2 "o"); [subst c2|simpl in Hp; destruct (ascii_dec c2 "o"); congruence].
  destruct (ascii_dec c3 "h"); [subst c3|simpl in Hp; destruct (ascii_dec c3 "h"); congruence].
  destruct (ascii_dec c4 "n"); [subst c4|simpl in Hp; destruct (ascii_dec c4 "n"); congruence].
  reflexivity.
Defined.

(** X15: the first periodic update freezes the console.  When its first
    wait of [PERIODIC_UPDATE_INTERVAL_SECONDS] (fifteen minutes) times
    out, [periodic_update_thread] takes [print_lock] and calls
    [print_online_nodes], whose own [with print_lock:] waits for ever.
    From then on that thread keeps the lock, and [main] never again enters
    its [with print_lock:] block, so no further line is dispatched. *)
Theorem X15_periodic_update_freezes :
  lreach lock_init (mk_lock_sys (Some TUpdate) UOuter MQueue) /\
  (forall s s', lreach lock_init s -> upd s = UOuter -> lreach s s' ->
     upd s' = UOuter /\ lock_owner s' = Some TUpdate /\
     main_holds (main_at s') = false).
Proof.
  split.
  - eapply lreach_step; [apply l_upd_fire|].
    eapply lreach_step; [apply l_upd_acquire|]. apply lreach_refl.
  - intros s s' Hr Hu H.
    destruct (upd_blocked s s' (reachable_lock_inv s Hr) Hu H) as ((_ & Hx & _) & Hu' & Ho).
    split; [exact Hu'|]. split; [exact Ho|].
    rewrite Hu' in Hx. cbn in Hx. rewrite andb_true_r in Hx. exact Hx.
Qed.

Lemma X15_periodic_update_freezes_witness :
  main_holds (main_at (mk_lock_sys (Some TUpdate) UOuter (MGot "nodes all"))) = false.
Proof.
  apply (proj2 (proj2 (proj2 X15_periodic_update_freezes
    (mk_lock_sys (Some TUpdate) UOuter MQueue)
    (mk_lock_sys (Some TUpdate) UOuter (MGot "nodes all"))
    (proj1 X15_periodic_update_freezes) eq_refl
    (lreach_step _ _ _ (l_main_get _ _ "nodes all") (lreach_refl _))))).
Defined.

(** X16: [setFixedPosition] is only called with the values of the two
    fields after [pos], when both parse as floats. *)
Theorem X16_set_pos_parsed F (py_float : string -> option F) parts lat lon :
  handle_config_command F py_float parts = CfgSetPos lat lon ->
  exists w p3 p4 rest, parts = w :: "set" :: "pos" :: p3 :: p4 :: rest /\
    py_float p3 = Some lat /\ py_float p4 = Some lon.
Proof.
  unfold handle_config_command.
  destruct parts as [|w [|sub args]]; try discriminate.
  destruct (String.eqb sub "reboot"); [discriminate|].
  destruct (String.eqb_spec sub "set") as [->|]; [|discriminate].
  destruct args as [|setting [|p3 rest]]; try discriminate.
  destruct (String.eqb setting "owner"); [discriminate|].
  destruct (String.eqb_spec setting "pos") as [->|]; [|discriminate].
  destruct rest as [|p4 rest]; [discriminate|].
  destruct (py_float p3) as [x|] eqn:H3, (py_float p4) as [y|] eqn:H4;
    try discriminate.
  intros H; inv H. exists w, p3, p4, rest. auto.
Qed.

Lemma X16_set_pos_parsed_witness :
  exists w p3 p4 rest,
    ["config"; "set"; "pos"; "1"; "2"] = w :: "set" :: "pos" :: p3 :: p4 :: rest /\
    py_int p3 = Some 1%Z /\ py_int p4 = Some 2%Z.
Proof. exact (X16_set_pos_parsed Z py_int ["config"; "set"; "pos"; "1"; "2"] 1%Z 2%Z eq_refl). Defined.

Lemma ascii_lower_space c : ascii_lower c = " "%char -> c = " "%char.
Proof.
  destruct c as [[] [] [] [] [] [] [] []]; vm_compute;
    intros H; first [reflexivity|discriminate H].
Qed.

Lemma lower_prefix_space p raw :
  has_space p = false ->
  String.prefix (p ++ " ") (py_lower raw) = true ->
  exists a b, raw = (a ++ " " ++ b)%string /\ has_space a = false.
Proof.
  revert raw. induction p as [|c p IH]; intros raw Hs Hp.
  - destruct raw as [|c' r]; [discriminate|]. cbn [py_lower String.prefix append] in Hp.
    destruct (ascii_dec " "%char (ascii_lower c')) as [E|]; [|discriminate].
    symmetry in E; apply ascii_lower_space in E as ->. exists "", r. split; reflexivity.
  - simpl in Hs. apply orb_false_iff in Hs as [Hc Hs].
    destruct raw as [|c' r]; [discriminate|]. cbn [py_lower String.prefix append] in Hp.
    destruct (ascii_dec c (ascii_lower c')) as [E|]; [|discriminate].
    destruct (IH r Hs Hp) as (a & b & -> & Ha).
    exists (String c' a), b. split; [reflexivity|].
    change (has_space (String c' a)) with (Ascii.eqb c' " " || has_space a).
    rewrite Ha, orb_false_r.
    destruct (Ascii.eqb_spec c' " ") as [->|]; [|reflexivity].
    subst c. exact Hc.
Qed.

(** X17: a line taken as a config command always has at least two fields,
    so the "Invalid config command" branch of [handle_config_command] is
    never reached from the command loop. *)
Theorem X17_config_has_subcommand F (py_float : string -> option F) raw parts :
  dispatch raw = CmdConfig parts ->
  (2 <= length parts)%nat /\ handle_config_command F py_float parts <> CfgUsage.
Proof.
  unfold dispatch.
  repeat match goal with
  | |- context [if String.prefix "config " ?c then _ else _] =>
      destruct (String.prefix "config " c) eqn:Hp
  | |- context [if ?b then _ else _] =>
      match b with String.prefix "config " _ => fail 1 | _ => destruct b end
  end; try discriminate.
  intros H; inv H.
  destruct (lower_prefix_space "config" raw eq_refl Hp) as (a & b & -> & Ha).
  rewrite (py_split_space_word a b Ha).
  destruct (py_split_space b) as [|x xs] eqn:E;
    [exfalso; exact (py_split_space_nonempty b E)|].
  split; [simpl; lia|]. unfold handle_config_command.
  destruct (String.eqb x "reboot"); [discriminate|].
  destruct (String.eqb x "set"); [|discriminate].
  destruct xs as [|s [|p3 rest]]; try discriminate.
  destruct (String.eqb s "owner"); [discriminate|].
  destruct (String.eqb s "pos"); [|discriminate].
  destruct rest as [|p4 rest]; [discriminate|].
  destruct (py_float p3), (py_float p4); discriminate.
Qed.

Lemma X17_config_has_subcommand_witness :
  (2 <= length (py_split_space "CONFIG REBOOT"))%nat /\
  handle_config_command unit (fun _ => None) (py_split_space "CONFIG REBOOT") <> CfgUsage.
Proof. exact (X17_config_has_subcommand unit (fun _ => None) "CONFIG REBOOT" _ eq_refl). Defined.

(** ** Node listings *)

Definition heard_later (a b : string * node_info) : Prop :=
  (last_heard (snd b) <= last_heard (snd a))%Z.

Lemma heard_later_trans : Transitive heard_later.
Proof. unfold Transitive, heard_later. intros; lia. Qed.

Lemma insert_desc_perm x l : Permutation (insert_desc x l) (x :: l).
Proof.
  induction l as [|y l IH]; simpl; [reflexivity|].
  destruct (Z.leb _ _); [reflexivity|].
  rewrite IH. apply perm_swap.
Qed.

Lemma sort_desc_perm l : Permutation (sort_desc l) l.
Proof.
  induction l as [|x l IH]; simpl; [reflexivity|].
  rewrite insert_desc_perm, IH. reflexivity.
Qed.

Lemma insert_desc_hd y x l :
  HdRel heard_later y l -> heard_later y x -> HdRel heard_later y (insert_desc x l).
Proof.
  destruct l as [|z l]; simpl; intros H Hx; [constructor; exact Hx|].
  destruct (Z.leb _ _); constructor; [exact Hx|]. inv H. assumption.
Qed.

Lemma insert_desc_sorted x l : Sorted heard_later l -> Sorted heard_later (insert_desc x l).
Proof.
  induction l as [|y l IH]; intros Hs; simpl; [repeat constructor|].
  destruct (Z.leb_spec (last_heard (snd y)) (last_heard (snd x))).
  - constructor; [exact Hs|]. constructor. unfold heard_later. lia.
  - inv Hs. constructor; [auto|]. apply insert_desc_hd; [assumption|].
    unfold heard_later. lia.
Qed.

Lemma sort_desc_sorted l : Sorted heard_later (sort_desc l).
Proof. induction l; simpl; [constructor|apply insert_desc_sorted; assumption]. Qed.

Lemma insert_desc_front x l :
  Forall (fun y => heard_later x y) l -> insert_desc x l = x :: l.
Proof.
  destruct l as [|y l]; intros H; [reflexivity|]. inv H. simpl.
  unfold heard_later in *. destruct (Z.leb_spec (last_heard (snd y)) (last_heard (snd x)));
    [reflexivity|lia].
Qed.

Lemma Forall_filter_sub {A} (P : A -> Prop) f l : Forall P l -> Forall P (filter f l).
Proof.
  intros H. apply Forall_forall. intros a Ha. apply filter_In in Ha as [Ha _].
  exact (proj1 (Forall_forall P l) H a Ha).
Qed.

Lemma filter_insert_desc (f : string * node_info -> bool) x s :
  Sorted heard_later s ->
  filter f (insert_desc x s) = if f x then insert_desc x (filter f s) else filter f s.
Proof.
  induction s as [|y s IH]; intros Hs; simpl; [destruct (f x); reflexivity|].
  apply Sorted_StronglySorted in Hs as Hss; [|exact heard_later_trans].
  destruct (Z.leb_spec (last_heard (snd y)) (last_heard (snd x))) as [Hle|Hlt].
  - simpl. destruct (f x); [|reflexivity]. symmetry.
    change (if f y then y :: filter f s else filter f s) with (filter f (y :: s)).
    apply insert_desc_front. apply Forall_filter_sub. inv Hss. constructor; [unfold heard_later; lia|].
    apply Forall_forall. intros z Hz. unfold heard_later in *.
    pose proof (proj1 (Forall_forall _ _) H2 z Hz). cbv beta in H. lia.
  - inv Hs. simpl. rewrite (IH H1).
    destruct (f y) eqn:Fy, (f x) eqn:Fx; try reflexivity.
    simpl. destruct (Z.leb_spec (last_heard (snd y)) (last_heard (snd x))); [lia|reflexivity].
Qed.

Lemma filter_sort_desc f l : filter f (sort_desc l) = sort_desc (filter f l).
Proof.
  induction l as [|x l IH]; simpl; [reflexivity|].
  rewrite filter_insert_desc by apply sort_desc_sorted. rewrite IH.
  destruct (f x); reflexivity.
Qed.

Lemma sort_desc_same_key l k :
  Forall (fun kv => last_heard (snd kv) = k) l -> sort_desc l = l.
Proof.
  induction l as [|x l IH]; intros H; [reflexivity|]. inv H. simpl. rewrite (IH H3).
  apply insert_desc_front. apply Forall_forall. intros y Hy.
  pose proof (proj1 (Forall_forall _ _) H3 y Hy). cbv beta in H.
  unfold heard_later. lia.
Qed.

Lemma filter_filter_andb {A} (f g : A -> bool) l :
  filter f (filter g l) = filter (fun a => f a && g a) l.
Proof.
  induction l as [|a l IH]; simpl; [reflexivity|].
  destruct (g a); simpl; rewrite ?IH; [|rewrite andb_false_r; reflexivity].
  rewrite andb_true_r. reflexivity.
Qed.

Lemma sorted_filter {A} (R : A -> A -> Prop) f l :
  Transitive R -> Sorted R l -> Sorted R (filter f l).
Proof.
  intros Ht Hs. apply StronglySorted_Sorted.
  apply Sorted_StronglySorted in Hs; [|exact Ht].
  induction Hs as [|a l Hs IH Ha]; simpl; [constructor|].
  destruct (f a); [|exact IH]. constructor; [exact IH|]. apply Forall_filter_sub. exact Ha.
Qed.

(** X18: [nodes all] lists the nodes most recently heard first (a missing
    [lastHeard] counting as 0), nodes heard at the same time in the order of
    the node table. *)
Theorem X18_all_nodes_order nodes printed :
  on_nodes_updated nodes = Listed printed ->
  Sorted heard_later printed /\
  forall k, filter (fun kv => Z.eqb (last_heard (snd kv)) k) printed
          = filter (fun kv => Z.eqb (last_heard (snd kv)) k && node_printed (snd kv)) nodes.
Proof.
  unfold on_nodes_updated. destruct nodes as [|n ns]; [discriminate|].
  intros H; inv H. split.
  - apply sorted_filter; [exact heard_later_trans|apply (sort_desc_sorted (n :: ns))].
  - intros k. rewrite filter_filter_andb.
    change (insert_desc n (sort_desc ns)) with (sort_desc (n :: ns)).
    rewrite filter_sort_desc.
    apply (sort_desc_same_key _ k). apply Forall_forall. intros kv Hkv.
    apply filter_In in Hkv as [_ Hkv]. apply andb_true_iff in Hkv as [Hkv _].
    apply Z.eqb_eq. exact Hkv.
Qed.

Lemma X18_all_nodes_order_witness :
  Sorted heard_later
    (filter (fun kv => node_printed (snd kv))
      (sort_desc [("!a", mk_node (Some (mk_user (Some "A") None None [])) (Some 5%Z));
                  ("!b", mk_node (Some (mk_user (Some "B") None None [])) (Some 9%Z))])).
Proof.
  exact (proj1 (X18_all_nodes_order
    [("!a", mk_node (Some (mk_user (Some "A") None None [])) (Some 5%Z));
     ("!b", mk_node (Some (mk_user (Some "B") None None [])) (Some 9%Z))] _ eq_refl)).
Defined.

(** X19: [nodes all] prints every node of the table that has a non-empty
    [user] and no other, each once per entry. *)
Theorem X19_all_nodes_members nodes printed :
  on_nodes_updated nodes = Listed printed ->
  Permutation printed (filter (fun kv => node_printed (snd kv)) nodes).
Proof.
  unfold on_nodes_updated. destruct nodes as [|n ns]; [discriminate|].
  intros H; inv H. change (insert_desc n (sort_desc ns)) with (sort_desc (n :: ns)).
  rewrite filter_sort_desc. apply sort_desc_perm.
Qed.

Lemma X19_all_nodes_members_witness :
  Permutation
    (filter (fun kv => node_printed (snd kv))
      (sort_desc [("!a", mk_node (Some (mk_user None None None [])) (Some 5%Z));
                  ("!b", mk_node (Some (mk_user (Some "B") None None [])) None)]))
    [("!b", mk_node (Some (mk_user (Some "B") None None [])) None)].
Proof.
  exact (X19_all_nodes_members
    [("!a", mk_node (Some (mk_user None None None [])) (Some 5%Z));
     ("!b", mk_node (Some (mk_user (Some "B") None None [])) None)] _ eq_refl).
Defined.

(** X20: [nodes online] prints the [nodes all] listing restricted to the
    nodes heard within the last 30 minutes, in the same order. *)
Theorem X20_online_is_filtered_all now nodes p q :
  print_online_nodes now nodes = Listed p -> on_nodes_updated nodes = Listed q ->
  p = filter (fun kv => is_online now (snd kv)) q.
Proof.
  unfold print_online_nodes, on_nodes_updated.
  destruct nodes as [|n ns]; [discriminate|].
  intros Hp Hq. inv Hq. change (insert_desc n (sort_desc ns)) with (sort_desc (n :: ns)).
  destruct (filter (fun kv => is_online now (snd kv)) (n :: ns)) as [|o os] eqn:E;
    [discriminate|]. inv Hp.
  change (insert_desc o (sort_desc os)) with (sort_desc (o :: os)).
  rewrite filter_sort_desc, <- E, !filter_filter_andb, filter_sort_desc.
  f_equal. apply filter_ext. intros a. apply andb_comm.
Qed.

Lemma X20_online_is_filtered_all_witness :
  [("!b", mk_node (Some (mk_user (Some "B") None None [])) (Some 9000%Z))]
  = filter (fun kv => is_online 10000 (snd kv))
      [("!b", mk_node (Some (mk_user (Some "B") None None [])) (Some 9000%Z));
       ("!a", mk_node (Some (mk_user (Some "A") None None [])) (Some 5%Z))].
Proof.
  exact (X20_online_is_filtered_all 10000
    [("!a", mk_node (Some (mk_user (Some "A") None None [])) (Some 5%Z));
     ("!b", mk_node (Some (mk_user (Some "B") None None [])) (Some 9000%Z))]
    _ _ eq_refl eq_refl).
Defined.

Lemma filter_nil_false {A} (f : A -> bool) l x : filter f l = [] -> In x l -> f x = false.
Proof.
  intros H Hx. destruct (f x) eqn:Fx; [|reflexivity].
  assert (Hin : In x (filter f l)) by (apply filter_In; auto).
  rewrite H in Hin. destruct Hin.
Qed.

Lemma filter_all_false {A} (f : A -> bool) l :
  Forall (fun a => f a = false) l -> filter f l = [].
Proof. induction 1 as [|a l Ha _ IH]; simpl; [reflexivity|]. rewrite Ha. exact IH. Qed.

(** X21: "No nodes appear to be online." is printed exactly when the node
    table is not empty and no node was heard after [time.time() - 1800]
    (a node without [lastHeard] counting as heard at time 0). *)
Theorem X21_none_online_iff now nodes :
  print_online_nodes now nodes = NoneOnline <->
  nodes <> [] /\
  Forall (fun kv => (last_heard (snd kv) <= now - ONLINE_THRESHOLD_SECONDS)%Z) nodes.
Proof.
  unfold print_online_nodes. destruct nodes as [|n ns].
  { split; [discriminate|intros [H _]; contradiction]. }
  destruct (filter (fun kv => is_online now (snd kv)) (n :: ns)) as [|o os] eqn:E.
  - split; [intros _|reflexivity]. split; [discriminate|].
    apply Forall_forall. intros kv Hkv.
    pose proof (filter_nil_false _ _ kv E Hkv) as Hf. cbv beta in Hf.
    unfold is_online in Hf. apply Z.ltb_ge in Hf. exact Hf.
  - split; [discriminate|]. intros [_ HF].
    assert (Ho : In o (filter (fun kv => is_online now (snd kv)) (n :: ns)))
      by (rewrite E; left; reflexivity).
    apply filter_In in Ho as [Ho Hon].
    pose proof (proj1 (Forall_forall _ _) HF o Ho) as Hle. cbv beta in Hle.
    unfold is_online in Hon. apply Z.ltb_lt in Hon. lia.
Qed.

(** X22: when the online nodes all lack a non-empty [user], the online
    listing prints its frame with no node in it, and not "No nodes appear
    to be online.". *)
Theorem X22_online_without_user now nodes :
  filter (fun kv => is_online now (snd kv)) nodes <> [] ->
  Forall (fun kv => node_printed (snd kv) = false)
    (filter (fun kv => is_online now (snd kv)) nodes) ->
  print_online_nodes now nodes = Listed [].
Proof.
  intros Hne Hall. unfold print_online_nodes.
  destruct nodes as [|n ns]; [contradiction|].
  destruct (filter (fun kv => is_online now (snd kv)) (n :: ns)) as [|o os] eqn:E;
    [contradiction|].
  change (insert_desc o (sort_desc os)) with (sort_desc (o :: os)).
  rewrite filter_sort_desc, (filter_all_false _ _ Hall). reflexivity.
Qed.

Lemma X22_online_without_user_witness :
  print_online_nodes 10000
    [("!a", mk_node None (Some 9999%Z));
     ("!b", mk_node (Some (mk_user (Some "B") None None [])) (Some 5%Z))] = Listed [].
Proof.
  apply X22_online_without_user.
  - discriminate.
  - repeat constructor.
Defined.

(** ** GUI *)

Lemma filter_lookup_default s :
  filter_lookup default_filter_vars s = Some false <-> s = "ROUTING_APP".
Proof.
  unfold filter_lookup, default_filter_vars. cbn [find fst].
  destruct (String.eqb_spec "ADMIN_APP" s) as [<-|];
    [split; intros H; discriminate H|].
  destruct (String.eqb_spec "POSITION_APP" s) as [<-|];
    [split; intros H; discriminate H|].
  destruct (String.eqb_spec "TELEMETRY_APP" s) as [<-|];
    [split; intros H; discriminate H|].
  destruct (String.eqb_spec "NODEINFO_APP" s) as [<-|];
    [split; intros H; discriminate H|].
  destruct (String.eqb_spec "ROUTING_APP" s) as [<-|];
    [split; reflexivity|split; intros H; [discriminate H|congruence]].
Qed.

(** X23: with the filters the GUI starts with, exactly the [ROUTING_APP]
    packets are kept out of the message window; every other packet,
    including one with no [decoded] part (shown as type [UNKNOWN]), is
    logged or makes the call raise. *)
Theorem X23_default_filter_hides_routing F (p : packet) (pos : option (position_dict F)) :
  update_message_window default_filter_vars (p, pos) = Filtered <->
  portnum (match decoded p with Some d => d | None => empty_decoded end)
  = Some "ROUTING_APP".
Proof.
  unfold update_message_window.
  generalize (match decoded p with Some d => d | None => empty_decoded end) as d.
  intros d. destruct (portnum d) as [s|]; cbn [get_default].
  - destruct (filter_lookup default_filter_vars s) as [[|]|] eqn:E.
    + split; [|intros H; inv H; vm_compute in E; discriminate E].
      repeat match goal with
      | |- context [if ?b then _ else _] => destruct b
      | |- context [match ?x with Some _ => _ | None => _ end] => destruct x
      end; discriminate.
    + apply filter_lookup_default in E as ->. split; reflexivity.
    + split; [|intros H; inv H; vm_compute in E; discriminate E].
      repeat match goal with
      | |- context [if ?b then _ else _] => destruct b
      | |- context [match ?x with Some _ => _ | None => _ end] => destruct x
      end; discriminate.
  - split; [discriminate|discriminate].
Qed.

(** X24: a packet without a [decoded] part is dropped by the console's
    [on_receive], while the GUI queues it and logs it as a packet of type
    [UNKNOWN] with the default filters. *)
Theorem X24_undecoded_cli_vs_gui F c p (pos : option (position_dict F)) :
  decoded p = None ->
  on_receive c p = (c, Dropped) /\
  on_packet_received c p = (c, Displayed p) /\
  update_message_window default_filter_vars (p, pos)
  = Logged "meta" (LogPacket "UNKNOWN" empty_decoded).
Proof.
  intros H. unfold on_receive, on_packet_received, update_message_window.
  rewrite H. split; [reflexivity|]. split; [|reflexivity].
  unfold is_routing. simpl. rewrite andb_false_r. reflexivity.
Qed.

Lemma X24_undecoded_cli_vs_gui_witness :
  on_receive ack_init (mk_packet (Some "!aaaaaaaa") None None) = (ack_init, Dropped).
Proof.
  exact (proj1 (X24_undecoded_cli_vs_gui unit ack_init
    (mk_packet (Some "!aaaaaaaa") None None) None eq_refl)).
Defined.

Lemma logged_entries_eq F filters (x : queued F) :
  logged_entries filters x
  = match update_message_window filters x with Logged t e => [(t, e)] | _ => [] end.
Proof. reflexivity. Qed.

Lemma process_queue_spec F filters (q : list (queued F)) l r :
  process_queue filters q = (l, r) ->
  (Forall (fun x => update_message_window filters x <> Raised) q /\
   l = flat_map (logged_entries filters) q /\ r = []) \/
  (exists pre x, q = pre ++ x :: r /\
     Forall (fun y => update_message_window filters y <> Raised) pre /\
     update_message_window filters x = Raised /\
     l = flat_map (logged_entries filters) pre).
Proof.
  revert l r. induction q as [|x q IH]; intros l r H.
  - inv H. left. auto.
  - cbn [process_queue] in H. cbn [flat_map].
    rewrite logged_entries_eq.
    destruct (update_message_window filters x) as [|t e|] eqn:Ex.
    + destruct (IH _ _ H) as [(Hf & -> & ->)|(pre & y & -> & Hf & Hy & ->)].
      * left. split; [constructor; [rewrite Ex; discriminate|exact Hf]|]. auto.
      * right. exists (x :: pre), y. split; [reflexivity|].
        split; [constructor; [rewrite Ex; discriminate|exact Hf]|]. split; [exact Hy|].
        cbn [flat_map]. rewrite logged_entries_eq, Ex. reflexivity.
    + destruct (process_queue filters q) as [l0 r0] eqn:Eq. inv H.
      destruct (IH _ _ eq_refl) as [(Hf & -> & ->)|(pre & y & -> & Hf & Hy & ->)].
      * left. split; [constructor; [rewrite Ex; discriminate|exact Hf]|]. auto.
      * right. exists (x :: pre), y. split; [reflexivity|].
        split; [constructor; [rewrite Ex; discriminate|exact Hf]|]. split; [exact Hy|].
        cbn [flat_map]. rewrite logged_entries_eq, Ex. reflexivity.
    + inv H. right. exists [], x. auto.
Qed.

(** X25: one run of [process_queue] logs the packets in queue order up to
    the first one whose position lacks a latitude or longitude; that packet
    is taken off the queue and lost, and the packets after it stay queued. *)
Theorem X25_process_queue_stops_at_raise F filters (q : list (queued F)) l r :
  process_queue filters q = (l, r) ->
  (Forall (fun x => update_message_window filters x <> Raised) q /\
   l = flat_map (logged_entries filters) q /\ r = []) \/
  (exists pre x, q = pre ++ x :: r /\
     Forall (fun y => update_message_window filters y <> Raised) pre /\
     update_message_window filters x = Raised /\
     l = flat_map (logged_entries filters) pre).
Proof. apply process_queue_spec. Qed.

Lemma X25_process_queue_stops_at_raise_witness :
  let good := (mk_packet (Some "!aaaaaaaa") None
                 (Some (mk_decoded (Some "TEXT_MESSAGE_APP") None (Some "hi") [])),
               @None (position_dict unit)) in
  let bad := (mk_packet (Some "!aaaaaaaa") None
                (Some (mk_decoded (Some "POSITION_APP") None None ["position"])),
              Some (mk_position (Some tt) None)) in
  exists pre x, [good; bad; good] = pre ++ x :: [good] /\
    Forall (fun y => update_message_window default_filter_vars y <> Raised) pre /\
    update_message_window default_filter_vars x = Raised /\
    [("message", LogText "hi")] = flat_map (logged_entries default_filter_vars) pre.
Proof.
  intros good bad.
  destruct (X25_process_queue_stops_at_raise unit default_filter_vars
    [good; bad; good] [("message", LogText "hi")] [good] eq_refl)
    as [(_ & _ & H)|H]; [discriminate H|exact H].
Defined.

Lemma process_runs_nil F n filters : @process_runs F n filters [] = ([], []).
Proof. induction n as [|n IH]; simpl; [reflexivity|rewrite IH; reflexivity]. Qed.

(** X26: while no packet arrives, the scheduled runs of [process_queue]
    empty the queue and log every packet in order except the filtered ones
    and the position packets lacking a coordinate. *)
Theorem X26_runs_log_all_but_lost F filters (q : list (queued F)) n :
  (length q <= n)%nat ->
  process_runs n filters q = (flat_map (logged_entries filters) q, []).
Proof.
  revert q. induction n as [|n IH]; intros q Hl.
  - destruct q; [reflexivity|simpl in Hl; lia].
  - simpl. destruct (process_queue filters q) as [l r] eqn:E.
    destruct (process_queue_spec F filters q l r E)
      as [(_ & -> & ->)|(pre & x & -> & _ & Hx & ->)].
    + rewrite process_runs_nil, app_nil_r. reflexivity.
    + rewrite length_app in Hl. simpl in Hl.
      rewrite (IH r ltac:(lia)), flat_map_app. simpl.
      rewrite logged_entries_eq, Hx. reflexivity.
Qed.

Lemma X26_runs_log_all_but_lost_witness :
  process_runs 3 default_filter_vars
    [(mk_packet (Some "!aaaaaaaa") None
        (Some (mk_decoded (Some "POSITION_APP") None None ["position"])),
      Some (mk_position (Some tt) None));
     (mk_packet (Some "!aaaaaaaa") None
        (Some (mk_decoded (Some "TEXT_MESSAGE_APP") None (Some "hi") [])), None)]
  = ([("message", LogText "hi")], []).
Proof.
  exact (X26_runs_log_all_but_lost unit default_filter_vars
    [(mk_packet (Some "!aaaaaaaa") None
        (Some (mk_decoded (Some "POSITION_APP") None None ["position"])),
      Some (mk_position (Some tt) None));
     (mk_packet (Some "!aaaaaaaa") None
        (Some (mk_decoded (Some "TEXT_MESSAGE_APP") None (Some "hi") [])), None)]
    3 ltac:(simpl; lia)).
Defined.

Lemma dict_get_set {V} k k' (v : V) d :
  dict_get k (dict_set k' v d) = if String.eqb k' k then Some v else dict_get k d.
Proof.
  induction d as [|[k1 v1] d IH]; simpl; [reflexivity|].
  destruct (String.eqb_spec k1 k') as [->|Hne]; simpl.
  - destruct (String.eqb k' k); reflexivity.
  - rewrite IH. destruct (String.eqb_spec k1 k) as [->|]; [|reflexivity].
    destruct (String.eqb_spec k' k); [congruence|reflexivity].
Qed.

Lemma fold_channel_map k chs s d :
  dict_get k (fold_left channel_map_step (combine (seq s (length chs)) chs) d)
  = match last_index k s chs with Some i => Some i | None => dict_get k d end.
Proof.
  revert s d. induction chs as [|ch chs IH]; intros s d; [reflexivity|].
  simpl. rewrite IH. unfold channel_map_step. simpl. rewrite dict_get_set.
  destruct (last_index k (S s) chs); [reflexivity|].
  destruct (String.eqb (ch_name ch) k); reflexivity.
Qed.

Lemma last_index_some k s chs i :
  last_index k s chs = Some i ->
  (s <= i)%nat /\
  exists ch, nth_error chs (i - s) = Some ch /\ ch_name ch = k /\
    forall j ch', (i - s < j)%nat -> nth_error chs j = Some ch' -> ch_name ch' <> k.
Proof.
  revert s. induction chs as [|c chs IH]; intros s H; [discriminate|].
  simpl in H. destruct (last_index k (S s) chs) as [i'|] eqn:E.
  - injection H as Hi. subst i'. destruct (IH (S s) E) as (Hs & ch & H1 & H2 & H3).
    split; [lia|]. exists ch. replace (i - s)%nat with (S (i - S s)) by lia.
    split; [exact H1|]. split; [exact H2|].
    intros [|j] ch' Hj Hn; [lia|]. apply (H3 j); [lia|exact Hn].
  - destruct (String.eqb_spec (ch_name c) k) as [Hc|]; [|discriminate].
    injection H as Hi. subst i.
    split; [lia|]. exists c. rewrite Nat.sub_diag. split; [reflexivity|].
    split; [exact Hc|]. intros [|j] ch' Hj Hn; [lia|]. simpl in Hn.
    clear IH. revert s E j ch' Hj Hn. induction chs as [|c' chs IH]; intros s E j ch' Hj Hn;
      [destruct j; discriminate|].
    simpl in E. destruct (last_index k (S (S s)) chs) eqn:E2; [discriminate|].
    destruct (String.eqb_spec (ch_name c') k); [discriminate|].
    destruct j as [|j]; [simpl in Hn; congruence|].
    apply (IH (S s) E2 j ch'); [lia|exact Hn].
Qed.

Lemma last_index_none k s chs :
  last_index k s chs = None -> forall ch, In ch chs -> ch_name ch <> k.
Proof.
  revert s. induction chs as [|c chs IH]; intros s H ch Hin; [destruct Hin|].
  simpl in H. destruct (last_index k (S s) chs) eqn:E; [discriminate|].
  destruct Hin as [->|Hin].
  - destruct (String.eqb_spec (ch_name ch) k); [discriminate|assumption].
  - exact (IH (S s) E ch Hin).
Qed.

(** X27: in the GUI's channel map a name stands for the last channel that
    has it; a name no channel has is absent (and a broadcast on it goes to
    channel 0). *)
Theorem X27_channel_map_last_index chs name :
  (forall i, dict_get name (channel_map chs) = Some i <->
    exists ch, nth_error chs i = Some ch /\ ch_name ch = name /\
      forall j ch', (i < j)%nat -> nth_error chs j = Some ch' -> ch_name ch' <> name) /\
  (dict_get name (channel_map chs) = None <-> forall ch, In ch chs -> ch_name ch <> name).
Proof.
  unfold channel_map. rewrite fold_channel_map. split.
  - intros i. split.
    + destruct (last_index name 0 chs) as [i'|] eqn:E; [|discriminate].
      intros H; inv H. destruct (last_index_some _ _ _ _ E) as (_ & ch & H1 & H2 & H3).
      rewrite Nat.sub_0_r in *. exists ch. auto.
    + intros (ch & H1 & H2 & H3).
      destruct (last_index name 0 chs) as [i'|] eqn:E.
      * destruct (last_index_some _ _ _ _ E) as (_ & ch' & H1' & H2' & H3').
        rewrite Nat.sub_0_r in *. f_equal.
        destruct (Nat.lt_trichotomy i i') as [Hlt|[Heq|Hgt]]; [|exact (eq_sym Heq)|].
        -- exfalso. exact (H3 i' ch' Hlt H1' H2').
        -- exfalso. exact (H3' i ch Hgt H1 H2).
      * exfalso. apply nth_error_In in H1. exact (last_index_none _ _ _ E ch H1 H2).
  - split.
    + destruct (last_index name 0 chs) as [i'|] eqn:E; [discriminate|].
      intros _. exact (last_index_none _ _ _ E).
    + intros Hn. destruct (last_index name 0 chs) as [i'|] eqn:E; [|reflexivity].
      exfalso. destruct (last_index_some _ _ _ _ E) as (_ & ch & H1 & H2 & _).
      apply nth_error_In in H1. exact (Hn ch H1 H2).
Qed.

Lemma dict_set_absent {V} k (v : V) d :
  dict_get k d = None -> dict_set k v d = d ++ [(k, v)].
Proof.
  induction d as [|[k1 v1] d IH]; simpl; intros H; [reflexivity|].
  destruct (String.eqb k1 k); [discriminate|]. rewrite (IH H). reflexivity.
Qed.

Lemma channel_map_keys_fold chs s d :
  NoDup (map ch_name chs) ->
  (forall ch, In ch chs -> dict_get (ch_name ch) d = None) ->
  map fst (fold_left channel_map_step (combine (seq s (length chs)) chs) d)
  = map fst d ++ map ch_name chs.
Proof.
  revert s d. induction chs as [|c chs IH]; intros s d Hnd Hd; simpl; [rewrite app_nil_r; reflexivity|].
  inv Hnd. unfold channel_map_step at 2. simpl.
  rewrite (dict_set_absent _ _ _ (Hd c (or_introl eq_refl))).
  rewrite IH; [rewrite map_app, <- app_assoc; reflexivity|exact H2|].
  intros ch Hin. rewrite <- dict_set_absent by exact (Hd c (or_introl eq_refl)).
  rewrite dict_get_set. destruct (String.eqb_spec (ch_name c) (ch_name ch)) as [E|].
  - exfalso. apply H1. rewrite E. apply in_map. exact Hin.
  - apply Hd. right. exact Hin.
Qed.

Lemma first_primary_spec s chs p :
  first_primary s chs = Some p ->
  (s <= p)%nat /\ exists ch, nth_error chs (p - s) = Some ch /\ ch_role ch = PRIMARY.
Proof.
  revert s. induction chs as [|c chs IH]; intros s H; [discriminate|].
  simpl in H. destruct (ch_role c) eqn:R; simpl in H.
  - destruct (IH (S s) H) as (Hs & ch & H1 & H2). split; [lia|].
    exists ch. replace (p - s)%nat with (S (p - S s)) by lia. auto.
  - injection H as Hp. subst p. split; [lia|]. exists c. rewrite Nat.sub_diag. auto.
  - destruct (IH (S s) H) as (Hs & ch & H1 & H2). split; [lia|].
    exists ch. replace (p - s)%nat with (S (p - S s)) by lia. auto.
Qed.

(** X28: when the channel names are pairwise distinct, the GUI selects the
    primary channel's name in the channel box and a broadcast on it goes to
    the primary channel. *)
Theorem X28_distinct_names_broadcast_primary chs p :
  NoDup (map ch_name chs) -> first_primary 0 chs = Some p ->
  exists ch, nth_error chs p = Some ch /\ ch_role ch = PRIMARY /\
    combobox_selection chs = Some (ch_name ch) /\
    broadcast_index chs (ch_name ch) = p.
Proof.
  intros Hnd Hp. destruct (first_primary_spec _ _ _ Hp) as (_ & ch & H1 & H2).
  rewrite Nat.sub_0_r in H1. exists ch. split; [exact H1|]. split; [exact H2|].
  split.
  - unfold combobox_selection, channel_map. rewrite Hp.
    rewrite channel_map_keys_fold by (assumption || (intros; reflexivity)).
    simpl. rewrite nth_error_map, H1. reflexivity.
  - unfold broadcast_index, channel_map. rewrite fold_channel_map.
    destruct (last_index (ch_name ch) 0 chs) as [i|] eqn:E.
    + destruct (last_index_some _ _ _ _ E) as (_ & ch' & H1' & H2' & _).
      rewrite Nat.sub_0_r in H1'.
      apply (proj1 (NoDup_nth_error _) Hnd).
      * apply nth_error_Some. rewrite nth_error_map, H1'. discriminate.
      * rewrite !nth_error_map, H1', H1. simpl. rewrite H2'. reflexivity.
    + exfalso. apply nth_error_In in H1.
      exact (last_index_none _ _ _ E ch H1 eq_refl).
Qed.

Lemma X28_distinct_names_broadcast_primary_witness :
  exists ch, nth_error [mk_channel PRIMARY "LongFast"; mk_channel SECONDARY "Family"] 0
               = Some ch /\ ch_role ch = PRIMARY /\
    combobox_selection [mk_channel PRIMARY "LongFast"; mk_channel SECONDARY "Family"]
      = Some (ch_name ch) /\
    broadcast_index [mk_channel PRIMARY "LongFast"; mk_channel SECONDARY "Family"]
      (ch_name ch) = 0%nat.
Proof.
  apply X28_distinct_names_broadcast_primary; [|reflexivity].
  apply NoDup_cons; [simpl; intros [H|[]]; discriminate H|].
  apply NoDup_cons; [intros []|apply NoDup_nil].
Defined.

Lemma channel_map_head_key L k v d :
  exists v' d', fold_left channel_map_step L ((k, v) :: d) = (k, v') :: d'.
Proof.
  revert v d. induction L as [|[i ch] L IH]; intros v d; simpl; [eauto|].
  unfold channel_map_step at 2. simpl.
  destruct (String.eqb k (ch_name ch)); apply IH.
Qed.

(** X29: when the primary channel (slot 0) shares its name with a later
    channel, as the unnamed primary and unnamed disabled slots of a device
    with default settings do, the GUI shows the primary's name but a
    broadcast goes to the last channel with that name, not to the
    primary. *)
Theorem X29_shared_name_broadcast_elsewhere ch0 rest ch' :
  ch_role ch0 = PRIMARY -> In ch' rest -> ch_name ch' = ch_name ch0 ->
  combobox_selection (ch0 :: rest) = Some (ch_name ch0) /\
  exists j ch, (0 < j)%nat /\ nth_error (ch0 :: rest) j = Some ch /\
    ch_name ch = ch_name ch0 /\
    (forall k ch'', (j < k)%nat -> nth_error (ch0 :: rest) k = Some ch'' ->
       ch_name ch'' <> ch_name ch0) /\
    broadcast_index (ch0 :: rest) (ch_name ch0) = j.
Proof.
  intros Hr Hin Hn. split.
  - unfold combobox_selection. simpl. rewrite Hr. simpl.
    unfold channel_map. simpl. unfold channel_map_step at 2. simpl.
    destruct (channel_map_head_key (combine (seq 1 (length rest)) rest) (ch_name ch0) 0 [])
      as (v' & d' & ->).
    reflexivity.
  - apply In_nth_error in Hin as [m Hm].
    unfold broadcast_index, channel_map. rewrite fold_channel_map.
    destruct (last_index (ch_name ch0) 0 (ch0 :: rest)) as [i|] eqn:E.
    + destruct (last_index_some _ _ _ _ E) as (_ & ch & H1 & H2 & H3).
      rewrite Nat.sub_0_r in *.
      assert (Hi : (S m <= i)%nat).
      { destruct (Nat.le_gt_cases (S m) i) as [|Hlt]; [assumption|].
        exfalso. exact (H3 (S m) ch' Hlt Hm Hn). }
      exists i, ch. split; [lia|]. split; [exact H1|]. split; [exact H2|].
      split; [exact H3|reflexivity].
    + exfalso. apply (last_index_none _ _ _ E ch'); [|exact Hn].
      right. apply nth_error_In in Hm. exact Hm.
Qed.

Lemma X29_shared_name_broadcast_elsewhere_witness :
  broadcast_index (mk_channel PRIMARY "" :: repeat (mk_channel DISABLED "") 7) "" = 7%nat.
Proof.
  destruct (X29_shared_name_broadcast_elsewhere (mk_channel PRIMARY "")
    (repeat (mk_channel DISABLED "") 7) (mk_channel DISABLED "")
    eq_refl (or_introl eq_refl) eq_refl) as [_ (j & ch & _ & Hch & _ & Hlast & Hb)].
  simpl ch_name in Hb, Hlast. rewrite Hb.
  assert (Hj : (j < 8)%nat).
  { apply (proj1 (nth_error_Some (mk_channel PRIMARY "" :: repeat (mk_channel DISABLED "") 7) j)).
    rewrite Hch. discriminate. }
  destruct (Nat.lt_ge_cases j 7) as [Hlt|Hge]; [|lia].
  exfalso. exact (Hlast 7%nat (mk_channel DISABLED "") Hlt eq_refl eq_refl).
Defined.
